(** * LEDSign: the FinishLynx receiver (modes/Lynx_receiver.py)

    A shallow embedding of the line parser [parse_csv_line], the display
    [State], the reducer [apply_message], the rotation step of [main] and the
    index computation of [Renderer.render_results], with the properties of
    the ingestion-and-state pipeline proved about them.

    Text is modelled by [string] (8-bit characters).  [upper] and [strip] are
    Python's [str.upper] and [str.strip] on the ASCII range, which is the
    range the protocol's tags and separators live in; characters above 127
    are carried through unchanged. *)

From Stdlib Require Import Bool Arith Lia List Ascii String ZArith FunInd.
From Stdlib Require Import DecimalString.
Import ListNotations.

Local Open Scope string_scope.
Local Open Scope list_scope.

(** ** Python string helpers *)

Module Py.

Definition dquote : ascii := "034"%char.
Definition comma : ascii := ","%char.

(** [str.isspace] on one ASCII character: TAB..CR, FS..US and SPACE. *)
Definition isspace (c : ascii) : bool :=
  let n := nat_of_ascii c in
  (((9 <=? n) && (n <=? 13)) || ((28 <=? n) && (n <=? 32)))%nat.

Fixpoint lstrip (s : string) : string :=
  match s with
  | EmptyString => EmptyString
  | String c r => if isspace c then lstrip r else s
  end.

Fixpoint rstrip (s : string) : string :=
  match s with
  | EmptyString => EmptyString
  | String c r =>
      match rstrip r with
      | EmptyString => if isspace c then EmptyString else String c EmptyString
      | r' => String c r'
      end
  end.

(** [s.strip()] *)
Definition strip (s : string) : string := rstrip (lstrip s).

Definition upper_char (c : ascii) : ascii :=
  let n := nat_of_ascii c in
  if ((97 <=? n) && (n <=? 122))%nat then ascii_of_nat (n - 32) else c.

(** [s.upper()] *)
Fixpoint upper (s : string) : string :=
  match s with
  | EmptyString => EmptyString
  | String c r => String (upper_char c) (upper r)
  end.

(** [l[-n:]] for [n > 0]: the whole list when it has at most [n] items,
    its last [n] items otherwise. *)
Definition lastn {A : Type} (n : nat) (l : list A) : list A :=
  skipn (List.length l - n) l.

(** [parts[i] if len(parts) > i else d] *)
Definition item_or (parts : list string) (i : nat) (d : string) : string :=
  nth i parts d.

End Py.

Import Py.

(** ** parsing helpers *)

(** The [while i < len(line)] loop of [parse_csv_line]: [line] is the part of
    the input from index [i] on; [out], [field] and [in_quotes] are the
    loop's variables.  The result is their value when the loop exits. *)
Fixpoint csv_loop (line : string) (out : list string) (field : string)
  (in_quotes : bool) : list string * string * bool :=
  match line with
  | EmptyString => (out, field, in_quotes)
  | String c rest =>
      if Ascii.eqb c dquote then
        match in_quotes, rest with
        | true, String c' rest' =>
            if Ascii.eqb c' dquote
            then csv_loop rest' out (field ++ String dquote EmptyString) in_quotes
            else csv_loop rest out field (negb in_quotes)
        | _, _ => csv_loop rest out field (negb in_quotes)
        end
      else if Ascii.eqb c comma && negb in_quotes then
        csv_loop rest (out ++ [strip field]) EmptyString in_quotes
      else
        csv_loop rest out (field ++ String c EmptyString) in_quotes
  end.

Definition parse_csv_line (line : string) : list string :=
  match csv_loop line [] EmptyString false with
  | (out, field, _) => out ++ [strip field]
  end.

(** Whether the loop leaves [parse_csv_line] inside an open quoted field. *)
Definition ends_in_quotes (line : string) : bool :=
  snd (csv_loop line [] EmptyString false).


(** ** state *)

Inductive Mode : Type := HEADER | RESULTS.

Record State : Type := mkState {
  event : string;
  heat : string;
  clock : string;
  mode : Mode;
  results : list (string * string);   (* [(place, mark)] *)
  results_names : list string;        (* [last_name] *)
  result_index : nat
}.

(** [State.__init__] *)
Definition State_init : State :=
  {| event := ""; heat := ""; clock := "0:00"; mode := HEADER;
     results := []; results_names := []; result_index := 0 |}.

(** [State.clear]: re-runs [__init__] on the object. *)
Definition clear (st : State) : State := State_init.

(** ** application logic *)

Definition apply_message (st : State) (line : string) : State :=
  if String.eqb line "" then st else
  let parts := parse_csv_line line in
  match parts with
  | [] => st
  | p0 :: _ =>
    let tag := upper p0 in
    if String.eqb tag "CL" then clear st
    else if String.eqb tag "RH" then
      let heat' := item_or parts 4 "" in
      {| event := item_or parts 1 "";
         heat := if String.eqb heat' "" then "" else heat';
         clock := "0:00";
         mode := HEADER;
         results := results st; results_names := results_names st;
         result_index := result_index st |}
    else if String.eqb tag "TM" then
      {| event := event st; heat := heat st;
         clock := item_or parts 1 (clock st);
         mode := HEADER;
         results := results st; results_names := results_names st;
         result_index := result_index st |}
    else if String.eqb tag "SRMODE" then
      if (1 <? List.length parts)%nat && String.eqb (upper (item_or parts 1 "")) "BEGIN" then
        {| event := event st; heat := heat st; clock := clock st;
           mode := RESULTS;
           results := results st; results_names := results_names st;
           result_index := 0 |}
      else if (1 <? List.length parts)%nat && String.eqb (upper (item_or parts 1 "")) "END" then
        {| event := event st; heat := heat st; clock := clock st;
           mode := HEADER;
           results := results st; results_names := results_names st;
           result_index := result_index st |}
      else st
    else if String.eqb tag "SR" then
      let place := item_or parts 1 "" in
      let last := item_or parts 2 "" in
      let mark := item_or parts 3 "" in
      {| event := event st; heat := heat st; clock := clock st;
         mode := RESULTS;
         results := lastn 16 (results st ++ [(place, mark)]);
         results_names := lastn 16 (results_names st ++ [last]);
         result_index := result_index st |}
    else if String.eqb tag "TX" then
      {| event := item_or parts 1 (event st);
         heat := "";
         mode := HEADER;
         clock := clock st;
         results := results st; results_names := results_names st;
         result_index := result_index st |}
    else st
  end.

(** The drain loop of [main]: every queued line is applied in dequeue
    order. *)
Definition drain (st : State) (lines : list string) : State :=
  fold_left apply_message lines st.

(** ** renderer (what the frame shows, not how it is drawn) *)

Inductive Frame : Type :=
| HeaderFrame (title small big_clock : string)
| ResultsFrame (top mark : string).

Definition render_header (st : State) : Frame :=
  HeaderFrame (event st) (heat st) (clock st).

(** The index [render_results] reads the lists at, [None] when it falls
    back to the header because [results] is empty. *)
Definition shown_index (st : State) : option nat :=
  match results st with
  | [] => None
  | _ => Some (result_index st mod List.length (results st))
  end.

(** [render_results]; [None] stands for the [IndexError] of a list access
    out of range. *)
Definition render_results (st : State) : option Frame :=
  match shown_index st with
  | None => Some (render_header st)
  | Some i =>
      match nth_error (results st) i with
      | None => None
      | Some (place, mark) =>
          match nth_error (results_names st) i with
          | None => None
          | Some last => Some (ResultsFrame (place ++ " - " ++ last) mark)
          end
      end
  end.

Definition render (st : State) : option Frame :=
  match mode st with
  | RESULTS => render_results st
  | HEADER => Some (render_header st)
  end.

(** ** main loop *)

(** The variables of [main]'s loop that outlive an iteration.  Clock
    readings ([time.time()]) are modelled as integers; the loop compares and
    adds them and nothing below depends on more. *)
Record Loop : Type := mkLoop {
  st : State;
  next_rotate : Z
}.

Definition nonempty {A : Type} (l : list A) : bool :=
  match l with [] => false | _ => true end.

Definition in_results (s : State) : bool :=
  match mode s with RESULTS => nonempty (results s) | HEADER => false end.

Definition bump (s : State) : State :=
  {| event := event s; heat := heat s; clock := clock s; mode := mode s;
     results := results s; results_names := results_names s;
     result_index := result_index s + 1 |}.

(** The rotation block of one iteration, at clock reading [now]. *)
Definition rotate (rotate_sec now : Z) (l : Loop) : Loop :=
  if in_results (st l) then
    if (next_rotate l <=? now)%Z then
      {| st := bump (st l); next_rotate := (now + rotate_sec)%Z |}
    else l
  else {| st := st l; next_rotate := (now + rotate_sec)%Z |}.

(** A rotation tick: an iteration in which the index is advanced. *)
Definition rotates (now : Z) (l : Loop) : bool :=
  in_results (st l) && (next_rotate l <=? now)%Z.

(** One iteration of [while running]: drain the queue, rotate.  (The frame
    handed to the panel is [render] of the resulting state.) *)
Definition iteration (rotate_sec : Z) (l : Loop) (it : list string * Z) : Loop :=
  rotate rotate_sec (snd it) {| st := drain (st l) (fst it); next_rotate := next_rotate l |}.

Definition run (rotate_sec : Z) (l : Loop) (its : list (list string * Z)) : Loop :=
  fold_left (iteration rotate_sec) its l.

(** [main]'s loop state on entry, at clock reading [t0]. *)
Definition Loop_init (rotate_sec t0 : Z) : Loop :=
  {| st := State_init; next_rotate := (t0 + rotate_sec)%Z |}.

(** ** Vocabulary of the statements *)

(** [parts[0].upper()], the tag [apply_message] dispatches on. *)
Definition tag_of (line : string) : string :=
  upper (hd "" (parse_csv_line line)).

(** The positional argument [parts[i]], with [d] when it is missing. *)
Definition arg (i : nat) (d line : string) : string :=
  item_or (parse_csv_line line) i d.

Definition known_tags : list string :=
  ["CL"; "RH"; "TM"; "SRMODE"; "SR"; "TX"].

(** A line made of whitespace only (the empty line included). *)
Fixpoint blank (line : string) : bool :=
  match line with
  | EmptyString => true
  | String c r => isspace c && blank r
  end.

Fixpoint has_char (x : ascii) (s : string) : bool :=
  match s with
  | EmptyString => false
  | String c r => Ascii.eqb c x || has_char x r
  end.

(** The number of double-quote characters in a text. *)
Fixpoint count_quotes (s : string) : nat :=
  match s with
  | EmptyString => 0
  | String c r => (if Ascii.eqb c dquote then 1 else 0) + count_quotes r
  end.

(** The commas of [s] that lie outside double quotes: those with an even
    number of double-quote characters before them, [seen] being the number
    of such characters before [s]. *)
Fixpoint commas_outside (seen : nat) (s : string) : nat :=
  match s with
  | EmptyString => 0
  | String c r =>
      if Ascii.eqb c dquote then commas_outside (S seen) r
      else if Ascii.eqb c comma && Nat.even seen
           then S (commas_outside seen r)
           else commas_outside seen r
  end.

Definition starts_with (x : ascii) (s : string) : bool :=
  match s with
  | EmptyString => false
  | String c _ => Ascii.eqb c x
  end.

(** What an [SR] line contributes to the two lists. *)
Definition sr_pair (line : string) : string * string :=
  (arg 1 "" line, arg 3 "" line).

Definition sr_name (line : string) : string := arg 2 "" line.

(** *** Writing a line

    The sender's side of the CSV convention: a field is written bare, or
    wrapped in double quotes with every quote inside it doubled; fields are
    joined by commas. *)

Inductive Field : Type :=
| Bare (s : string)
| Quoted (s : string).

Definition content (f : Field) : string :=
  match f with Bare s => s | Quoted s => s end.

Fixpoint escape (s : string) : string :=
  match s with
  | EmptyString => EmptyString
  | String c r =>
      if Ascii.eqb c dquote then String dquote (String dquote (escape r))
      else String c (escape r)
  end.

Definition write_field (f : Field) : string :=
  match f with
  | Bare s => s
  | Quoted s => String dquote (escape s ++ String dquote EmptyString)
  end.

Fixpoint write_line (fs : list Field) : string :=
  match fs with
  | [] => EmptyString
  | f :: fs' =>
      match fs' with
      | [] => write_field f
      | _ => write_field f ++ String comma (write_line fs')
      end
  end.

(** A bare field holds neither a quote nor a comma. *)
Definition field_ok (f : Field) : bool :=
  match f with
  | Bare s => negb (has_char dquote s) && negb (has_char comma s)
  | Quoted _ => true
  end.

(** *** The results list as the specification words it

    One sequence of entries [{place, name, mark}]: [Result] appends an entry
    and drops the oldest when the length exceeds 16, [Clear] empties it, and
    nothing else touches it. *)

Record ResultEntry : Type := mkEntry {
  place : string;
  name : string;
  mark : string
}.

Definition entry_of (line : string) : ResultEntry :=
  {| place := arg 1 "" line; name := arg 2 "" line; mark := arg 3 "" line |}.

Definition spec_results_step (ents : list ResultEntry) (line : string)
  : list ResultEntry :=
  if String.eqb line "" then ents
  else if String.eqb (tag_of line) "CL" then []
  else if String.eqb (tag_of line) "SR" then
    let ents' := ents ++ [entry_of line] in
    if (16 <? List.length ents')%nat then tl ents' else ents'
  else ents.

Definition spec_results (lines : list string) : list ResultEntry :=
  fold_left spec_results_step lines [].

(** The code's two lists hold the entries [ents]: pairs in [results], names
    in [results_names], position by position. *)
Definition pair_of (e : ResultEntry) : string * string := (place e, mark e).

Definition holds (ents : list ResultEntry) (s : State) : Prop :=
  results s = map pair_of ents /\ results_names s = map name ents.

(** The lines the iterations [its] take off the queue, in dequeue order. *)
Definition queued (its : list (list string * Z)) : list string :=
  List.concat (map fst its).

(** *** Rotation ticks *)

(** Iterations that find the queue empty, one per clock reading. *)
Definition idle (nows : list Z) : list (list string * Z) :=
  map (fun now => ([], now)) nows.

(** How many of the idle iterations at readings [nows], started from [l],
    are rotation ticks. *)
Fixpoint rotation_ticks (rotate_sec : Z) (l : Loop) (nows : list Z) : nat :=
  match nows with
  | [] => 0
  | now :: nows' =>
      (if rotates now l then 1 else 0)
      + rotation_ticks rotate_sec (rotate rotate_sec now l) nows'
  end.

(** The state with its mode replaced. *)
Definition with_mode (m : Mode) (s : State) : State :=
  {| event := event s; heat := heat s; clock := clock s; mode := m;
     results := results s; results_names := results_names s;
     result_index := result_index s |}.

(** ** receiver

    What [Receiver._run_udp] and [Receiver._run_tcp] put on the queue for
    one datagram or chunk, from its decoded text on:
    [for line in text.splitlines(): self.q.put(line.strip())]. *)

(** The ASCII line boundaries of [str.splitlines]: LF, VT, FF, CR, FS, GS
    and RS (CR LF counts as one). *)
Definition is_linebreak (c : ascii) : bool :=
  let n := nat_of_ascii c in
  (((10 <=? n) && (n <=? 13)) || ((28 <=? n) && (n <=? 30)))%nat.

Definition CR : ascii := "013"%char.
Definition LF : ascii := "010"%char.

(** [cur] is the line being read. *)
Fixpoint splitlines_from (s cur : string) : list string :=
  match s with
  | EmptyString =>
      match cur with EmptyString => [] | _ => [cur] end
  | String c r =>
      if is_linebreak c then
        match r with
        | String c' r' =>
            if Ascii.eqb c CR && Ascii.eqb c' LF
            then cur :: splitlines_from r' EmptyString
            else cur :: splitlines_from r EmptyString
        | EmptyString => cur :: splitlines_from r EmptyString
        end
      else splitlines_from r (cur ++ String c EmptyString)
  end.

(** [text.splitlines()] *)
Definition splitlines (text : string) : list string :=
  splitlines_from text EmptyString.

Definition put_lines (text : string) : list string :=
  map strip (splitlines text).

(** A line as a sender terminates it. *)
Definition terminated (line : string) : string :=
  (line ++ String LF EmptyString)%string.

Fixpoint join_lines (lines : list string) : string :=
  match lines with
  | [] => EmptyString
  | l :: ls => (terminated l ++ join_lines ls)%string
  end.

Fixpoint has_linebreak (s : string) : bool :=
  match s with
  | EmptyString => false
  | String c r => is_linebreak c || has_linebreak r
  end.

(** Two partly read fields that strip to the same, whatever is read next. *)
Definition strip_alike (f1 f2 : string) : Prop :=
  forall x, strip (f1 ++ x) = strip (f2 ++ x).

(** ** The display fields, the rotation index apart *)

Definition same_display (s1 s2 : State) : Prop :=
  event s1 = event s2 /\ heat s1 = heat s2 /\ clock s1 = clock s2
  /\ mode s1 = mode s2 /\ results s1 = results s2
  /\ results_names s1 = results_names s2.

(** Iteration [it], started from [l], is a rotation tick. *)
Definition fires (l : Loop) (it : list string * Z) : bool :=
  rotates (snd it) {| st := drain (st l) (fst it); next_rotate := next_rotate l |}.

(** Iteration [it], started from [l], sets the rotation timer anew. *)
Definition resets (l : Loop) (it : list string * Z) : bool :=
  fires l it || negb (in_results (drain (st l) (fst it))).

(** ** renderer, as drawn

    [Renderer] down to the drawing calls.  A frame canvas is modelled by the
    marks put on it since it was last cleared, in drawing order.  The
    panel's size and the width [graphics.DrawText] returns for a text in a
    font belong to the matrix library and are left open. *)

Module Panel.

Inductive Font : Type := font_title | font_clock | font_small.

Inductive Color : Type := white | green.

Inductive Mark : Type :=
| Text (font : Font) (x y : Z) (color : Color) (text : string)
| Line (x0 y0 x1 y1 : Z) (color : Color).

Definition Canvas : Type := list Mark.

Section Matrix.

Variables width height : Z.
Variable advance : Font -> string -> Z.

Definition CreateFrameCanvas : Canvas := [].

Definition Clear (canvas : Canvas) : Canvas := [].

Definition DrawText (canvas : Canvas) (font : Font) (x y : Z) (color : Color)
  (text : string) : Canvas * Z :=
  (canvas ++ [Text font x y color text], advance font text).

Definition DrawLine (canvas : Canvas) (x0 y0 x1 y1 : Z) (color : Color)
  : Canvas :=
  canvas ++ [Line x0 y0 x1 y1 color].

(** [Renderer._center_text]; no caller passes [color], so it is [white]. *)
Definition _center_text (canvas : Canvas) (font : Font) (text : string) (y : Z)
  : Canvas * Z :=
  if String.eqb text "" then (canvas, 0%Z)
  else
    let '(canvas1, w_text) := DrawText canvas font 0 y white text in
    if (w_text <? width)%Z then
      let x := ((width - w_text) / 2)%Z in
      (fst (DrawText (Clear canvas1) font x y white text), w_text)
    else (canvas1, w_text).

(** [Renderer.render_header]: the canvas handed to [SwapOnVSync]. *)
Definition render_header (s : State) : Canvas :=
  let canvas := CreateFrameCanvas in
  let canvas := fst (_center_text canvas font_title (event s) 18) in
  let canvas :=
    if String.eqb (heat s) "" then canvas
    else fst (DrawText canvas font_small 2 (height - 2) white (heat s)) in
  fst (_center_text canvas font_clock (clock s) 46).

(** [Renderer.render_results]; [None] stands for an [IndexError]. *)
Definition render_results (s : State) : option Canvas :=
  match results s with
  | [] => Some (render_header s)
  | _ =>
      let i := result_index s mod List.length (results s) in
      match nth_error (results s) i with
      | None => None
      | Some (place, mark) =>
          match nth_error (results_names s) i with
          | None => None
          | Some last =>
              let top := (place ++ " - " ++ last)%string in
              let canvas := CreateFrameCanvas in
              let canvas := fst (_center_text canvas font_title top 20) in
              let canvas := DrawLine canvas 0 28 (width - 1) 28 green in
              Some (fst (_center_text canvas font_clock mark 58))
          end
      end
  end.

(** [Renderer.render] *)
Definition render (s : State) : option Canvas :=
  match mode s with
  | RESULTS => render_results s
  | HEADER => Some (render_header s)
  end.

End Matrix.

End Panel.

(** A panel 128 wide and 64 high whose fonts advance 10, 16 and 7 per
    character. *)
Definition advance_fixed (f : Panel.Font) (text : string) : Z :=
  match f with
  | Panel.font_title => 10 * Z.of_nat (String.length text)
  | Panel.font_clock => 16 * Z.of_nat (String.length text)
  | Panel.font_small => 7 * Z.of_nat (String.length text)
  end.

(** * Manual modes (sign-controller/modes)

    The parts of the timer, lap counter, menu and rounds modes that decide
    what is counted and shown.  A key read is [Some c] for a character and
    [None] for a read that timed out. *)

Module Keys.

Definition ESC : ascii := "027"%char.
Definition BS : ascii := "008"%char.
Definition DEL : ascii := "127"%char.

(** [c in ('\r', '\n')] *)
Definition is_enter (c : ascii) : bool := Ascii.eqb c CR || Ascii.eqb c LF.

(** [c.isdigit()] on an ASCII character *)
Definition isdigit (c : ascii) : bool :=
  let n := nat_of_ascii c in ((48 <=? n) && (n <=? 57))%nat.

End Keys.

Module TimerModes.

Import Keys.

(** [str(n)] *)
Definition str (n : Z) : string := NilZero.string_of_int (Z.to_int n).

(** [f"{n:02d}"] *)
Definition format_02d (n : Z) : string :=
  let s := str n in
  if (String.length s <? 2)%nat then String "0" s else s.

(** [int(s)] on a string of ASCII digits; [None] is the [ValueError] of the
    empty string (strings with other characters do not arise and are given
    [None] too). *)
Fixpoint int_digits (acc : Z) (s : string) : option Z :=
  match s with
  | EmptyString => Some acc
  | String c r =>
      if isdigit c
      then int_digits (10 * acc + Z.of_nat (nat_of_ascii c - 48)) r
      else None
  end.

Definition int (s : string) : option Z :=
  match s with
  | EmptyString => None
  | _ => int_digits 0 s
  end.

(** [s.rjust(2, '0')] *)
Definition rjust2 (s : string) : string :=
  match s with
  | EmptyString => "00"
  | String c EmptyString => String "0" s
  | _ => s
  end.

(** [s[:-1]] *)
Fixpoint drop_last (s : string) : string :=
  match s with
  | EmptyString => EmptyString
  | String c EmptyString => EmptyString
  | String c r => String c (drop_last r)
  end.

Definition fmt_fields (h m s : Z) : string :=
  (format_02d h ++ ":" ++ format_02d m ++ ":" ++ format_02d s)%string.

Definition fmt_hhmmss (total_seconds : Z) : string :=
  let total_seconds := if (total_seconds <? 0)%Z then 0%Z else total_seconds in
  let h := (total_seconds / 3600)%Z in
  let m := ((total_seconds mod 3600) / 60)%Z in
  let s := (total_seconds mod 60)%Z in
  fmt_fields h m s.

(** [int(x or 0)]: the slice read as a number, 0 when it is empty. *)
Definition int_or_0 (x : string) : option Z :=
  match x with
  | EmptyString => Some 0%Z
  | _ => int x
  end.

(** [int((x or "0").rjust(2, '0'))] *)
Definition int_padded (x : string) : option Z :=
  int (rjust2 (match x with EmptyString => "0" | _ => x end)).

(** The live preview [collect_hhmmss] draws at the top of each iteration;
    [None] if one of its [int] calls raises. *)
Definition preview (digits : string) : option string :=
  let first :=
    if (1 <=? String.length digits)%nat then
      (if (2 <=? String.length digits)%nat
       then int_or_0 (substring 0 2 digits)
       else int (substring 0 1 digits))
    else Some 0%Z in
  match first with
  | None => None
  | Some _ =>
      let fields :=
        if (String.length digits =? 6)%nat then
          (int (substring 0 2 digits), int (substring 2 2 digits),
           int (substring 4 2 digits))
        else
          (int_or_0 (substring 0 2 digits), int_or_0 (substring 2 2 digits),
           int_or_0 (substring 4 2 digits)) in
      match fields with
      | (Some hh, Some mm, Some ss) => Some (fmt_fields hh mm ss)
      | _ => None
      end
  end.

(** Where [collect_hhmmss] stands: still reading keys with [digits] typed,
    returned ([Some] seconds, or [None] on ESC), or stopped by an
    exception. *)
Inductive Collect : Type :=
| Reading (digits : string)
| Returned (seconds : option Z)
| Raised.

(** One iteration of the loop of [collect_hhmmss], the key read being
    [key]. *)
Definition collect_step (digits : string) (key : option ascii) : Collect :=
  match preview digits with
  | None => Raised
  | Some _ =>
      match key with
      | None => Reading digits
      | Some c =>
          if isdigit c && (String.length digits <? 6)%nat then
            Reading (digits ++ String c EmptyString)
          else if (Ascii.eqb c DEL || Ascii.eqb c BS)
                  && (0 <? String.length digits)%nat then
            Reading (drop_last digits)
          else if is_enter c then
            match int_padded (substring 0 2 digits),
                  int_padded (substring 2 2 digits),
                  int_padded (substring 4 2 digits) with
            | Some hh, Some mm, Some ss =>
                Returned (Some (hh * 3600 + mm * 60 + ss)%Z)
            | _, _, _ => Raised
            end
          else if Ascii.eqb c ESC then Returned None
          else Reading digits
      end
  end.

(** The loop over the keys read, from [digits]. *)
Fixpoint collect_from (digits : string) (keys : list (option ascii)) : Collect :=
  match keys with
  | [] => Reading digits
  | key :: keys' =>
      match collect_step digits key with
      | Reading digits' => collect_from digits' keys'
      | done => done
      end
  end.

Definition collect_hhmmss (keys : list (option ascii)) : Collect :=
  collect_from EmptyString keys.

End TimerModes.

(** [run_clock] of timer_modes.py.  Readings of [time.monotonic()] are
    floats; the loop only asks whether [now - last >= 1.0], takes
    [int(now - last)] and adds that to [last], and these three are left
    open here. *)

Module RunClock.

Import Keys.

Definition DIR_UP : Z := 1.
Definition DIR_DOWN : Z := -1.

(** [start or 0] *)
Definition or_0 (start : option Z) : Z :=
  match start with Some v => v | None => 0%Z end.

Section Time.

Variable T : Type.
Variable ge_1 : T -> T -> bool.      (* now - last >= 1.0 *)
Variable whole : T -> T -> Z.        (* int(now - last) *)
Variable plus : T -> Z -> T.         (* last + step *)

Record Clock : Type := mkClock {
  cur : Z;
  running : bool;
  last : T
}.

(** The state the loop is entered with, [None] when [run_clock] returns
    before it (a countdown whose entry was cancelled). *)
Definition enter (direction : Z) (start : option Z) (t0 : T) : option Clock :=
  match start with
  | None =>
      if (direction =? DIR_DOWN)%Z then None
      else Some {| cur := if (direction =? DIR_UP)%Z then 0%Z else or_0 start;
                   running := false; last := t0 |}
  | Some v =>
      Some {| cur := if (direction =? DIR_UP)%Z && (v =? 0)%Z then 0%Z
                     else or_0 start;
              running := false; last := t0 |}
  end.

(** The input handling of one iteration; [None] when the loop returns to
    the menu. *)
Definition on_key (direction : Z) (start : option Z) (key : option ascii)
  (c : Clock) : option Clock :=
  match key with
  | None => Some c
  | Some k =>
      if is_enter k then
        Some {| cur := cur c; running := negb (running c); last := last c |}
      else if Ascii.eqb k " " || Ascii.eqb k "p" || Ascii.eqb k "P" then
        Some {| cur := cur c; running := false; last := last c |}
      else if Ascii.eqb k "r" || Ascii.eqb k "R" then
        Some {| cur := if (direction =? DIR_UP)%Z then 0%Z else or_0 start;
                running := running c; last := last c |}
      else if Ascii.eqb k ESC then
        if running c
        then Some {| cur := cur c; running := false; last := last c |}
        else None
      else Some c
  end.

(** The timing part of one iteration, at reading [now]. *)
Definition on_time (direction : Z) (now : T) (c : Clock) : Clock :=
  if running c && ge_1 now (last c) then
    let step := whole now (last c) in
    let last' := plus (last c) step in
    let cur' := if (direction =? DIR_UP)%Z then (cur c + step)%Z
                else (cur c - step)%Z in
    if (direction =? DIR_DOWN)%Z && (cur' <=? 0)%Z
    then {| cur := 0; running := false; last := last' |}
    else {| cur := cur'; running := running c; last := last' |}
  else c.

Definition iteration (direction : Z) (start : option Z) (c : Clock)
  (ev : option ascii * T) : option Clock :=
  match on_key direction start (fst ev) c with
  | None => None
  | Some c' => Some (on_time direction (snd ev) c')
  end.

(** The loop over the keys and readings of its iterations; [None] once it
    has returned. *)
Fixpoint loop (direction : Z) (start : option Z) (c : Clock)
  (evs : list (option ascii * T)) : option Clock :=
  match evs with
  | [] => Some c
  | ev :: evs' =>
      match iteration direction start c ev with
      | None => None
      | Some c' => loop direction start c' evs'
      end
  end.

End Time.

End RunClock.

(** Iterations in which no key is read. *)
Definition no_keys {T : Type} (evs : list (option ascii * T)) : Prop :=
  Forall (fun ev => fst ev = None) evs.

(** ** lap_counter.py *)

Module LapCounter.

Import Keys.

(** The key handling of [run_lap_counter]; [None] when it returns. *)
Definition on_key (n : Z) (key : option ascii) : option Z :=
  match key with
  | None => Some n
  | Some c =>
      if is_enter c || Ascii.eqb c "+" then Some (n + 1)%Z
      else if Ascii.eqb c "-" || Ascii.eqb c "_" then Some (Z.max 0 (n - 1))
      else if Ascii.eqb c "0" then Some 0%Z
      else if Ascii.eqb c ESC then None
      else Some n
  end.

Fixpoint loop (n : Z) (keys : list (option ascii)) : option Z :=
  match keys with
  | [] => Some n
  | key :: keys' =>
      match on_key n key with
      | None => None
      | Some n' => loop n' keys'
      end
  end.

(** [run_lap_counter]: the count after the keys read, [None] once it has
    returned. *)
Definition run_lap_counter (keys : list (option ascii)) : option Z :=
  loop 0 keys.

(** The text drawn for count [n]. *)
Definition text (n : Z) : string := TimerModes.str n.

End LapCounter.

(** The keys that add a lap. *)
Definition adds_lap (key : option ascii) : bool :=
  match key with
  | Some c => Keys.is_enter c || Ascii.eqb c "+"
  | None => false
  end.

(** ** menu.py *)

Module Menu.

Import Keys.

Definition MENU : list string :=
  ["FinishLynx"; "Clock Up"; "Clock Down"; "Lap Count"; "Rounds"].

(** [l[i]] for a Python list, negative indices counting from the end;
    [None] is the [IndexError]. *)
Definition item (l : list string) (i : Z) : option string :=
  let len := Z.of_nat (List.length l) in
  if (0 <=? i)%Z then nth_error l (Z.to_nat i)
  else if (- len <=? i)%Z then nth_error l (Z.to_nat (i + len))
  else None.

(** What a key makes of the selection: the new [idx], and the mode launched
    when the key is Enter ([Some None] standing for the [IndexError] of
    [MENU[idx]]). *)
Definition on_key (idx : Z) (c : ascii) : Z * option (option string) :=
  if Ascii.eqb c ESC then (idx, None)
  else if Ascii.eqb c "w" || Ascii.eqb c "W" || (nat_of_ascii c =? 65)%nat then
    (((idx - 1) mod Z.of_nat (List.length MENU))%Z, None)
  else if Ascii.eqb c "s" || Ascii.eqb c "S" || (nat_of_ascii c =? 66)%nat then
    (((idx + 1) mod Z.of_nat (List.length MENU))%Z, None)
  else if is_enter c then
    (idx, Some (item MENU idx))
  else (idx, None).

(** The selection after the keys the menu loop reads. *)
Definition navigate (idx : Z) (keys : list ascii) : Z :=
  fold_left (fun i c => fst (on_key i c)) keys idx.

End Menu.

(** ** rounds.py *)

Module Rounds.

Import Keys.

(** [_pause_screen] over the keys it reads: [Some true] on Enter,
    [Some false] on ESC, [None] while neither has come. *)
Fixpoint _pause_screen (keys : list (option ascii)) : option bool :=
  match keys with
  | [] => None
  | key :: keys' =>
      match key with
      | Some c =>
          if is_enter c then Some true
          else if Ascii.eqb c ESC then Some false
          else _pause_screen keys'
      | None => _pause_screen keys'
      end
  end.

(** A frame of the countdown: the seconds shown and whether the red border
    is drawn. *)
Definition Frame : Type := (Z * bool)%type.

Definition frame_of (remaining : Z) : Frame :=
  (remaining, (remaining <=? 1)%Z).

(** The countdown of [run_rounds] from [remaining] in rounds of [length]
    seconds.  A tick is given by the key its [_getch] reads and, for ESC,
    by what the pause screen then returns.  The result is the frames shown
    and whether the function has returned. *)
Fixpoint countdown (length remaining : Z) (ticks : list (option ascii * bool))
  : list Frame * bool :=
  match ticks with
  | [] => ([], false)
  | (key, resume) :: ticks' =>
      let frame := frame_of remaining in
      let leave := match key with
                   | Some c => Ascii.eqb c ESC && negb resume
                   | None => false
                   end in
      if leave then ([frame], true)
      else
        let remaining' := (remaining - 1)%Z in
        let next := if (0 <? remaining')%Z then remaining' else length in
        let '(frames, gone) := countdown length next ticks' in
        (frame :: frames, gone)
  end.

(** [run_rounds] once [collect_hhmmss] has returned [length]. *)
Definition run_rounds (length : option Z) (ticks : list (option ascii * bool))
  : list Frame * bool :=
  match length with
  | None => ([], true)
  | Some len =>
      if (len =? 0)%Z then ([], true)
      else if (len <? 0)%Z then ([], false)
      else countdown len len ticks
  end.

End Rounds.

(** Ticks none of which leaves the countdown: ESC is not pressed, or the
    pause screen is left by Enter. *)
Definition stays (ticks : list (option ascii * bool)) : Prop :=
  Forall (fun tk => fst tk <> Some Keys.ESC \/ snd tk = true) ticks.

(** A clock over integer readings in seconds. *)
Definition loop_seconds : Z -> option Z -> RunClock.Clock Z ->
  list (option ascii * Z) -> option (RunClock.Clock Z) :=
  RunClock.loop Z (fun now last => (1 <=? now - last)%Z)
    (fun now last => (now - last)%Z) Z.add.

(** ** matrix_utils.py *)

Module MatrixUtils.

(** The offset [(bg - fg)//2] that [center_image_on] pastes at and
    [render_text] draws at, along one axis. *)
Definition center (bg fg : Z) : Z := ((bg - fg) / 2)%Z.

(** [center_image_on]: where the foreground is pasted. *)
Definition center_image_on (bg_size fg_size : Z * Z) : Z * Z :=
  (center (fst bg_size) (fst fg_size), center (snd bg_size) (snd fg_size)).

(** [render_text]: the box [(x, y, w, h)] it returns for a text whose
    bounding box is [w] by [h]; a coordinate of [xy] is [None] for
    ["center"]. *)
Definition render_text (img_size : Z * Z) (w h : Z) (xy : option Z * option Z)
  : Z * Z * Z * Z :=
  let x := match fst xy with None => center (fst img_size) w | Some x => x end in
  let y := match snd xy with None => center (snd img_size) h | Some y => y end in
  (x, y, w, h).

End MatrixUtils.

(** The keys that type a string. *)
Fixpoint typed (s : string) : list (option ascii) :=
  match s with
  | EmptyString => []
  | String c r => Some c :: typed r
  end.

Fixpoint all_digits (s : string) : bool :=
  match s with
  | EmptyString => true
  | String c r => Keys.isdigit c && all_digits r
  end.

(** A key read that is a timeout or an ASCII character. *)
Definition ascii_key (key : option ascii) : bool :=
  match key with
  | Some c => (nat_of_ascii c <? 128)%nat
  | None => true
  end.

(** The two digits of a number below 100. *)
Definition two_digits (n : nat) : string :=
  String (ascii_of_nat (48 + n / 10)) (String (ascii_of_nat (48 + n mod 10)) "").

(** A state the examples start from: an event under way with two results
    on the board. *)
Definition busy : State :=
  {| event := "Boys 1600m"; heat := "Heat 1"; clock := "2:03.7";
     mode := RESULTS;
     results := [("1", "4:23.6"); ("2", "4:24.1")];
     results_names := ["Riley"; "Chen"];
     result_index := 1 |}.

(** The text up to the comma of a line with three quotes before it:
    [a], in quotes, then [x], then an opening quote and [b]. *)
Definition three_quotes : string :=
  (write_field (Quoted "a") ++ " x " ++ String dquote "b")%string.

(** Seventeen finishers, one [SR] line each. *)
Definition seventeen : list string :=
  ["SR,1,a,61"; "SR,2,b,62"; "SR,3,c,63"; "SR,4,d,64"; "SR,5,e,65";
   "SR,6,f,66"; "SR,7,g,67"; "SR,8,h,68"; "SR,9,i,69"; "SR,10,j,70";
   "SR,11,k,71"; "SR,12,l,72"; "SR,13,m,73"; "SR,14,n,74"; "SR,15,o,75";
   "SR,16,p,76"; "SR,17,q,77"].

(** The loop after the two results of [busy] came in at reading 0, with a
    rotation interval of 2. *)
Definition showing : Loop :=
  {| st := {| event := ""; heat := ""; clock := "0:00"; mode := RESULTS;
              results := [("1", "4:23.6"); ("2", "4:24.1")];
              results_names := ["Riley"; "Chen"];
              result_index := 0 |};
     next_rotate := 2 |}.

(** The induction principle that follows the branches of [csv_loop]. *)
Functional Scheme csv_loop_ind := Induction for csv_loop Sort Prop.

Functional Scheme splitlines_from_ind :=
  Induction for splitlines_from Sort Prop.

(** * Properties *)

Example parse_header :
  parse_csv_line
    (String "R" (String "H" (String comma (String dquote
       ("Boys 1600m" ++ String dquote (String comma " Heat 1 "))))))
  = ["RH"; "Boys 1600m"; "Heat 1"].
Proof. reflexivity. Qed.

(** The header scenario of the protocol: clear, header, clock. *)
Example header_scenario :
  drain busy
    ["CL";
     write_line [Bare "RH"; Quoted "Boys 1600m"; Quoted "Event 12";
                 Quoted "Round Final"; Quoted "Heat 1"];
     "TM,2:03.7"]
  = {| event := "Boys 1600m"; heat := "Heat 1"; clock := "2:03.7";
       mode := HEADER; results := []; results_names := [];
       result_index := 0 |}.
Proof. reflexivity. Qed.

(** ** Strings and slices *)

Lemma append_nil_r (s : string) : (s ++ "")%string = s.
Proof. induction s as [|c s IH]; simpl; [reflexivity | now rewrite IH]. Qed.

Lemma append_assoc (a b c : string) :
  ((a ++ b) ++ c = a ++ (b ++ c))%string.
Proof. induction a as [|x a IH]; simpl; [reflexivity | now rewrite IH]. Qed.

Lemma append_snoc (a : string) (c : ascii) (b : string) :
  ((a ++ String c "") ++ b = a ++ String c b)%string.
Proof. now rewrite append_assoc. Qed.

Lemma lastn_length_le {A} (n : nat) (l : list A) :
  List.length (lastn n l) <= n.
Proof. unfold lastn. rewrite length_skipn. lia. Qed.

Lemma lastn_all {A} (n : nat) (l : list A) :
  List.length l <= n -> lastn n l = l.
Proof.
  intros H. unfold lastn.
  replace (List.length l - n) with 0 by lia. reflexivity.
Qed.

Lemma lastn_app_long {A} (n : nat) (l1 l2 : list A) :
  n <= List.length l2 -> lastn n (l1 ++ l2) = lastn n l2.
Proof.
  intros H. unfold lastn. rewrite length_app, skipn_app.
  replace (List.length l1 + List.length l2 - n - List.length l1)
    with (List.length l2 - n) by lia.
  rewrite skipn_all2 by lia. reflexivity.
Qed.

Lemma lastn_snoc {A} (n : nat) (l : list A) (x : A) :
  0 < n -> lastn n (lastn n l ++ [x]) = lastn n (l ++ [x]).
Proof.
  intros Hn. unfold lastn.
  rewrite !length_app, length_skipn, !skipn_app, length_skipn, skipn_skipn.
  simpl List.length.
  destruct (Nat.le_gt_cases (List.length l) n) as [Hle | Hgt].
  - replace (List.length l - n) with 0 by lia.
    rewrite Nat.add_0_r, Nat.sub_0_r. reflexivity.
  - replace (List.length l - (List.length l - n) + 1 - n) with 1 by lia.
    replace (1 + (List.length l - n)) with (List.length l + 1 - n) by lia.
    replace (1 - (List.length l - (List.length l - n))) with 0 by lia.
    replace (List.length l + 1 - n - List.length l) with 0 by lia.
    reflexivity.
Qed.

Lemma lastn_map {A B} (f : A -> B) (n : nat) (l : list A) :
  lastn n (map f l) = map f (lastn n l).
Proof. unfold lastn. now rewrite length_map, skipn_map. Qed.

Lemma lastn_exact {A} (n : nat) (l : list A) :
  n <= List.length l -> List.length (lastn n l) = n.
Proof. intros H. unfold lastn. rewrite length_skipn. lia. Qed.

(** Dropping the head of a list of 17 is taking its last 16. *)
Lemma tl_lastn {A} (n : nat) (l : list A) :
  List.length l = S n -> tl l = lastn n l.
Proof.
  intros H. unfold lastn. rewrite H.
  replace (S n - n) with 1 by lia.
  destruct l; reflexivity.
Qed.

(** ** The loop of [parse_csv_line], one character at a time *)

Lemma csv_loop_open r out f :
  csv_loop (String dquote r) out f false = csv_loop r out f true.
Proof. simpl. destruct r; reflexivity. Qed.

Lemma csv_loop_doubled r out f :
  csv_loop (String dquote (String dquote r)) out f true
  = csv_loop r out (f ++ String dquote "") true.
Proof. reflexivity. Qed.

Lemma csv_loop_close_end out f :
  csv_loop (String dquote "") out f true = (out, f, false).
Proof. reflexivity. Qed.

Lemma csv_loop_close c r out f :
  c <> dquote ->
  csv_loop (String dquote (String c r)) out f true
  = csv_loop (String c r) out f false.
Proof.
  intros H. apply Ascii.eqb_neq in H.
  change (csv_loop (String dquote (String c r)) out f true)
    with (if Ascii.eqb c dquote
          then csv_loop r out (f ++ String dquote "") true
          else csv_loop (String c r) out f (negb true)).
  now rewrite H.
Qed.

Lemma csv_loop_comma r out f :
  csv_loop (String comma r) out f false
  = csv_loop r (out ++ [strip f]) "" false.
Proof. reflexivity. Qed.

Lemma csv_loop_char c r out f q :
  c <> dquote -> (c <> comma \/ q = true) ->
  csv_loop (String c r) out f q = csv_loop r out (f ++ String c "") q.
Proof.
  intros Hq Hc. apply Ascii.eqb_neq in Hq.
  cbn [csv_loop]. rewrite Hq.
  destruct Hc as [Hc | ->].
  - apply Ascii.eqb_neq in Hc. now rewrite Hc.
  - now rewrite andb_false_r.
Qed.

(** The fields already emitted are only ever extended. *)
Lemma csv_loop_out line : forall out f q,
  csv_loop line out f q
  = let '(o, f', q') := csv_loop line [] f q in (out ++ o, f', q').
Proof.
  assert (H : forall n line, String.length line <= n -> forall out f q,
    csv_loop line out f q
    = let '(o, f', q') := csv_loop line [] f q in (out ++ o, f', q')).
  { induction n as [|n IH]; intros [|c r] Hlen out f q; simpl in Hlen;
      try lia; try (simpl; now rewrite app_nil_r).
    cbn [csv_loop].
    destruct (Ascii.eqb c dquote).
    - destruct q, r as [|c' r']; try (apply IH; simpl in *; lia).
      destruct (Ascii.eqb c' dquote); apply IH; simpl in *; lia.
    - destruct (Ascii.eqb c comma && negb q).
      + rewrite (IH r ltac:(lia) (out ++ [strip f])).
        rewrite (IH r ltac:(lia) ([] ++ [strip f])).
        destruct (csv_loop r [] "" q) as [[o f'] q'].
        now rewrite app_assoc.
      + apply IH; lia. }
  intros. now apply (H (String.length line)).
Qed.

(** Scanning [a ++ b] is scanning [a], then [b] from where [a] left the
    loop; a quote that closes a field at the end of [a] must not be followed
    by another quote, which would turn the pair into a literal quote. *)
Lemma csv_loop_app a out f q b :
  forall o f' q', csv_loop a out f q = (o, f', q') ->
  q' = true \/ starts_with dquote b = false ->
  csv_loop (a ++ b) out f q = csv_loop b o f' q'.
Proof.
  functional induction (csv_loop a out f q); intros o f' q' E Hb.
  - inversion E; subst. reflexivity.
  - apply Ascii.eqb_eq in e0; subst c.
    simpl in E. inversion E; subst o f' q'.
    destruct Hb as [Hb | Hb]; [discriminate|].
    destruct b as [|c' b']; [reflexivity|].
    simpl in Hb. apply Ascii.eqb_neq in Hb.
    simpl append. now rewrite csv_loop_close.
  - apply Ascii.eqb_eq in e0, e3; subst c c'.
    simpl append. rewrite csv_loop_doubled. now apply IHp.
  - apply Ascii.eqb_eq in e0; subst c. apply Ascii.eqb_neq in e3.
    simpl append. rewrite csv_loop_close by assumption.
    now apply IHp.
  - apply Ascii.eqb_eq in e0; subst c.
    simpl append. rewrite csv_loop_open. now apply IHp.
  - apply andb_true_iff in e1 as [Hc Hq].
    apply Ascii.eqb_eq in Hc; subst c.
    destruct in_quotes; [discriminate|].
    simpl append. rewrite csv_loop_comma. now apply IHp.
  - apply Ascii.eqb_neq in e0.
    simpl append. rewrite csv_loop_char; [now apply IHp | assumption |].
    apply andb_false_iff in e1 as [Hc | Hq].
    + left. now apply Ascii.eqb_neq.
    + right. now destruct in_quotes.
Qed.

Lemma csv_loop_run s : forall rest out f q,
  has_char dquote s = false ->
  has_char comma s = false \/ q = true ->
  csv_loop (s ++ rest) out f q = csv_loop rest out (f ++ s) q.
Proof.
  induction s as [|c s IH]; intros rest out f q Hq Hc; simpl append.
  - now rewrite append_nil_r.
  - simpl in Hq. apply orb_false_iff in Hq as [Hq1 Hq2].
    apply Ascii.eqb_neq in Hq1.
    rewrite csv_loop_char; [| assumption |].
    + rewrite IH; [now rewrite append_snoc | assumption |].
      destruct Hc as [Hc | Hc]; [left | now right].
      simpl in Hc. now apply orb_false_iff in Hc.
    + destruct Hc as [Hc | Hc]; [left | now right].
      simpl in Hc. apply orb_false_iff in Hc as [Hc _].
      now apply Ascii.eqb_neq.
Qed.

Lemma parse_csv_line_cons line :
  exists p0 ps, parse_csv_line line = p0 :: ps.
Proof.
  unfold parse_csv_line.
  destruct (csv_loop line [] "" false) as [[o f] q].
  destruct o as [|p0 o]; simpl; eauto.
Qed.

(** ** [strip] *)

Lemma rstrip_cons c r :
  rstrip (String c r)
  = match rstrip r with
    | EmptyString => if isspace c then EmptyString else String c EmptyString
    | r' => String c r'
    end.
Proof. reflexivity. Qed.

Lemma rstrip_idem s : rstrip (rstrip s) = rstrip s.
Proof.
  induction s as [|c s IH]; [reflexivity|].
  rewrite rstrip_cons.
  destruct (rstrip s) as [|x y] eqn:E.
  - destruct (isspace c) eqn:Hc; [reflexivity|].
    simpl. now rewrite Hc.
  - rewrite rstrip_cons, IH. reflexivity.
Qed.

Lemma lstrip_head s :
  match lstrip s with
  | EmptyString => True
  | String c _ => isspace c = false
  end.
Proof.
  induction s as [|c s IH]; simpl; [exact I|].
  destruct (isspace c) eqn:Hc; [exact IH | exact Hc].
Qed.

Lemma lstrip_rstrip_fixed t :
  match t with EmptyString => True | String c _ => isspace c = false end ->
  lstrip (rstrip t) = rstrip t.
Proof.
  destruct t as [|c r]; [reflexivity|].
  intros Hc. rewrite rstrip_cons.
  destruct (rstrip r); rewrite ?Hc; simpl; now rewrite Hc.
Qed.

Lemma strip_idem s : strip (strip s) = strip s.
Proof.
  unfold strip.
  rewrite lstrip_rstrip_fixed by apply lstrip_head.
  apply rstrip_idem.
Qed.

Lemma isspace_not_sep c :
  isspace c = true -> c <> dquote /\ c <> comma.
Proof. intros H; split; intros ->; discriminate H. Qed.

Lemma blank_no_sep s :
  blank s = true -> has_char dquote s = false /\ has_char comma s = false.
Proof.
  induction s as [|c s IH]; simpl; [auto|].
  intros H. apply andb_true_iff in H as [Hc Hs].
  destruct (isspace_not_sep c Hc) as [Hq Hk].
  apply Ascii.eqb_neq in Hq, Hk. rewrite Hq, Hk.
  now apply IH.
Qed.

Lemma strip_blank s : blank s = true -> strip s = "".
Proof.
  unfold strip. induction s as [|c s IH]; simpl; [reflexivity|].
  intros H. apply andb_true_iff in H as [Hc Hs].
  rewrite Hc. now apply IH.
Qed.

Lemma parse_csv_line_blank line :
  blank line = true -> parse_csv_line line = [""].
Proof.
  intros H. destruct (blank_no_sep line H) as [Hq Hk].
  unfold parse_csv_line.
  rewrite <- (append_nil_r line) at 1.
  rewrite csv_loop_run by auto.
  simpl. now rewrite strip_blank.
Qed.

Lemma csv_loop_trimmed line out f q :
  Forall (fun x => strip x = x) out ->
  Forall (fun x => strip x = x) (fst (fst (csv_loop line out f q))).
Proof.
  functional induction (csv_loop line out f q); intros H; auto.
  apply IHp. apply Forall_app. split; [assumption|].
  constructor; [apply strip_idem | constructor].
Qed.

(** ** Reading back what was written *)

Lemma csv_loop_escape s : forall rest out f,
  starts_with dquote rest = false ->
  csv_loop (escape s ++ String dquote rest) out f true
  = csv_loop rest out (f ++ s) false.
Proof.
  induction s as [|c s IH]; intros rest out f Hrest.
  - simpl append at 1. rewrite append_nil_r.
    destruct rest as [|c' rest']; [reflexivity|].
    simpl in Hrest. apply Ascii.eqb_neq in Hrest.
    now apply csv_loop_close.
  - simpl escape. destruct (Ascii.eqb c dquote) eqn:Hc.
    + apply Ascii.eqb_eq in Hc; subst c.
      simpl append at 1. rewrite csv_loop_doubled, IH by assumption.
      now rewrite append_snoc.
    + apply Ascii.eqb_neq in Hc.
      simpl append at 1. rewrite csv_loop_char; [| assumption | now right].
      rewrite IH by assumption. now rewrite append_snoc.
Qed.

Lemma csv_loop_field fld rest out f :
  field_ok fld = true ->
  starts_with dquote rest = false ->
  csv_loop (write_field fld ++ rest) out f false
  = csv_loop rest out (f ++ content fld) false.
Proof.
  intros Hok Hrest. destruct fld as [s | s]; simpl write_field; simpl content.
  - simpl in Hok. apply andb_true_iff in Hok as [Hq Hk].
    apply negb_true_iff in Hq, Hk.
    apply csv_loop_run; auto.
  - simpl append at 1. rewrite append_snoc, csv_loop_open.
    now apply csv_loop_escape.
Qed.

Lemma csv_loop_write_line fs : forall fld out,
  forallb field_ok (fld :: fs) = true ->
  (let '(o, fl, _) := csv_loop (write_line (fld :: fs)) out "" false in
   o ++ [strip fl])
  = out ++ map (fun x => strip (content x)) (fld :: fs).
Proof.
  induction fs as [|g fs IH]; intros fld out Hok;
    simpl in Hok; apply andb_true_iff in Hok as [Hf Hfs].
  - simpl write_line. rewrite <- (append_nil_r (write_field fld)).
    rewrite csv_loop_field by auto. reflexivity.
  - change (write_line (fld :: g :: fs))
      with (write_field fld ++ String comma (write_line (g :: fs)))%string.
    rewrite csv_loop_field by auto.
    rewrite csv_loop_comma. simpl append at 1.
    rewrite (IH g (out ++ [strip (content fld)]) Hfs).
    now rewrite <- app_assoc.
Qed.

(** The loop's flag is the parity of the double quotes read: a quote
    flips it, and a doubled quote inside quotes is two quotes and flips
    nothing. *)
Lemma csv_loop_parity line out f q :
  snd (csv_loop line out f q) = xorb q (Nat.odd (count_quotes line)).
Proof.
  functional induction (csv_loop line out f q).
  - simpl. now rewrite xorb_false_r.
  - apply Ascii.eqb_eq in e0; subst c. reflexivity.
  - apply Ascii.eqb_eq in e0; subst c.
    rewrite IHp. cbn [count_quotes]. rewrite e3.
    change (Ascii.eqb dquote dquote) with true.
    change (1 + (1 + count_quotes rest')) with (S (S (count_quotes rest'))).
    now rewrite Nat.odd_succ_succ.
  - apply Ascii.eqb_eq in e0; subst c.
    rewrite IHp. cbn [count_quotes].
    change (Ascii.eqb dquote dquote) with true.
    change (1 + ?n) with (S n).
    rewrite Nat.odd_succ, <- Nat.negb_odd. simpl.
    now destruct (Nat.odd _).
  - apply Ascii.eqb_eq in e0; subst c.
    rewrite IHp. cbn [count_quotes].
    change (Ascii.eqb dquote dquote) with true.
    change (1 + ?n) with (S n).
    rewrite Nat.odd_succ, <- Nat.negb_odd. simpl.
    now destruct (Nat.odd _).
  - rewrite IHp. cbn [count_quotes]. now rewrite e0.
  - rewrite IHp. cbn [count_quotes]. now rewrite e0.
Qed.

Lemma ends_in_quotes_parity line :
  ends_in_quotes line = Nat.odd (count_quotes line).
Proof. unfold ends_in_quotes. now rewrite csv_loop_parity. Qed.

(** A field is emitted at each comma outside quotes, and only there. *)
Lemma csv_loop_fields line out f q : forall seen,
  q = Nat.odd seen ->
  List.length (fst (fst (csv_loop line out f q)))
  = List.length out + commas_outside seen line.
Proof.
  functional induction (csv_loop line out f q); intros seen Hq.
  - simpl. lia.
  - apply Ascii.eqb_eq in e0; subst c. simpl. lia.
  - apply Ascii.eqb_eq in e0, e3; subst c c'.
    rewrite (IHp (S (S seen))) by (now rewrite Nat.odd_succ_succ).
    reflexivity.
  - apply Ascii.eqb_eq in e0; subst c.
    rewrite (IHp (S seen)); [reflexivity|].
    rewrite Nat.odd_succ, <- Nat.negb_odd, <- Hq. reflexivity.
  - apply Ascii.eqb_eq in e0; subst c.
    rewrite (IHp (S seen)); [reflexivity|].
    rewrite Nat.odd_succ, <- Nat.negb_odd, <- Hq. reflexivity.
  - rewrite (IHp seen Hq), length_app. cbn [commas_outside].
    rewrite e0. apply andb_true_iff in e1 as [Hc Hn].
    rewrite Hc, <- Nat.negb_odd, <- Hq, Hn. simpl. lia.
  - rewrite (IHp seen Hq). cbn [commas_outside]. rewrite e0.
    rewrite <- Nat.negb_odd, <- Hq, e1. reflexivity.
Qed.

Lemma parse_csv_line_fields line :
  List.length (parse_csv_line line) = S (commas_outside 0 line).
Proof.
  unfold parse_csv_line.
  pose proof (csv_loop_fields line [] "" false 0 eq_refl) as H.
  destruct (csv_loop line [] "" false) as [[o f] q]. simpl in H.
  rewrite length_app, H. simpl. lia.
Qed.

Lemma parse_split_outside a b :
  ends_in_quotes a = false ->
  parse_csv_line (a ++ String comma b) = parse_csv_line a ++ parse_csv_line b.
Proof.
  unfold ends_in_quotes, parse_csv_line. intros Ha.
  destruct (csv_loop a [] "" false) as [[oa fa] qa] eqn:Ea.
  simpl in Ha; subst qa.
  rewrite (csv_loop_app _ _ _ _ _ _ _ _ Ea) by (now right).
  rewrite csv_loop_comma, csv_loop_out.
  destruct (csv_loop b [] "" false) as [[ob fb] qb].
  now rewrite <- app_assoc.
Qed.

Lemma csv_loop_inside a b o f :
  csv_loop a [] "" false = (o, f, true) ->
  csv_loop (a ++ String comma b) [] "" false
  = csv_loop b o (f ++ String comma "") true
  /\ csv_loop (a ++ String dquote (String dquote b)) [] "" false
     = csv_loop b o (f ++ String dquote "") true.
Proof.
  intros Ea. split.
  - rewrite (csv_loop_app _ _ _ _ _ _ _ _ Ea) by (now left).
    apply csv_loop_char; [discriminate | now right].
  - rewrite (csv_loop_app _ _ _ _ _ _ _ _ Ea) by (now left).
    apply csv_loop_doubled.
Qed.

(** C7 — [parse_csv_line] follows the CSV quoting convention, on every
    line.  Inside and outside quotes are read off the line itself: (5) the
    flag the loop keeps is the parity of the double-quote characters read so
    far.  So (6) a comma with an even number of quote characters before it
    ends a field, and the line splits there; (7) a comma with an odd number
    before it is kept in the field and ends nothing, and a doubled quote with
    an odd number before it puts one quote character into the field; (8) the
    fields returned are one more than the commas outside quotes.  In the
    loop's own terms these are (1) and (2).  (3) A line written from fields,
    each bare or wrapped in double quotes with inner quotes doubled, reads
    back as those fields, so a quoted field may hold commas and a doubled
    quote gives one quote character; and (4) every field returned is
    stripped of surrounding whitespace, which by (3) happens after
    unquoting. *)
Theorem parse_csv_line_quoting (a b : string) (fs : list Field)
  (o : list string) (f line : string) :
  (ends_in_quotes a = false ->
     parse_csv_line (a ++ String comma b)
     = parse_csv_line a ++ parse_csv_line b)
  /\ (csv_loop a [] "" false = (o, f, true) ->
     csv_loop (a ++ String comma b) [] "" false
     = csv_loop b o (f ++ String comma "") true)
  /\ (fs <> [] -> forallb field_ok fs = true ->
     parse_csv_line (write_line fs)
     = map (fun x => strip (content x)) fs)
  /\ Forall (fun x => strip x = x) (parse_csv_line line)
  /\ (ends_in_quotes line = Nat.odd (count_quotes line)
      /\ snd (csv_loop line [] "" false) = Nat.odd (count_quotes line))
  /\ (Nat.even (count_quotes a) = true ->
      parse_csv_line (a ++ String comma b)
      = parse_csv_line a ++ parse_csv_line b)
  /\ (Nat.odd (count_quotes a) = true ->
      exists o' f',
        csv_loop a [] "" false = (o', f', true)
        /\ csv_loop (a ++ String comma b) [] "" false
           = csv_loop b o' (f' ++ String comma "") true
        /\ csv_loop (a ++ String dquote (String dquote b)) [] "" false
           = csv_loop b o' (f' ++ String dquote "") true)
  /\ List.length (parse_csv_line line) = S (commas_outside 0 line).
Proof.
  split; [apply parse_split_outside|].
  split; [intros Ea; apply (proj1 (csv_loop_inside a b o f Ea))|].
  split.
  { intros Hne Hok. destruct fs as [|fld fs']; [congruence|].
    unfold parse_csv_line.
    pose proof (csv_loop_write_line fs' fld [] Hok) as H.
    destruct (csv_loop (write_line (fld :: fs')) [] "" false) as [[o' f'] q'].
    exact H. }
  split.
  { unfold parse_csv_line.
    pose proof (csv_loop_trimmed line [] "" false (Forall_nil _)) as H.
    destruct (csv_loop line [] "" false) as [[o' f'] q']. simpl in H.
    apply Forall_app. split; [assumption|].
    constructor; [apply strip_idem | constructor]. }
  split; [split; apply ends_in_quotes_parity|].
  split.
  { intros He. apply parse_split_outside.
    rewrite ends_in_quotes_parity, <- Nat.negb_even, He. reflexivity. }
  split; [| apply parse_csv_line_fields].
  intros Ho. rewrite <- ends_in_quotes_parity in Ho.
  unfold ends_in_quotes in Ho.
  destruct (csv_loop a [] "" false) as [[o' f'] q'] eqn:Ea.
  simpl in Ho; subst q'.
  exists o', f'. split; [reflexivity|].
  apply (csv_loop_inside a b o' f' Ea).
Qed.

Lemma parse_csv_line_quoting_witness :
  (ends_in_quotes (write_field (Quoted "a,b")) = false
   /\ parse_csv_line (write_field (Quoted "a,b") ++ String comma " c ")
      = parse_csv_line (write_field (Quoted "a,b")) ++ parse_csv_line " c ")
  /\ (csv_loop (String dquote "x") [] "" false = ([], "x", true)
      /\ csv_loop (String dquote "x" ++ String comma "y") [] "" false
         = csv_loop "y" [] "x," true)
  /\ parse_csv_line
       (write_line [Bare "SR"; Bare " 1"; Quoted (String dquote "Al, B");
                    Quoted " 4:23.6 "])
     = ["SR"; "1"; String dquote "Al, B"; "4:23.6"]
  /\ (Nat.even (count_quotes (write_field (Quoted "a,b"))) = true
      /\ parse_csv_line (write_field (Quoted "a,b") ++ String comma " c ")
         = ["a,b"; "c"])
  /\ (Nat.odd (count_quotes three_quotes) = true
      /\ parse_csv_line (three_quotes ++ String comma ("c" ++ String dquote ""))
         = ["a x b,c"]).
Proof.
  destruct (parse_csv_line_quoting (write_field (Quoted "a,b")) " c "
              [Bare "SR"; Bare " 1"; Quoted (String dquote "Al, B");
               Quoted " 4:23.6 "] [] "" "") as (H1 & _ & H3 & _ & _ & H6 & _).
  destruct (parse_csv_line_quoting (String dquote "x") "y" [] [] "x" "")
    as (_ & H2 & _).
  destruct (parse_csv_line_quoting three_quotes ("c" ++ String dquote "")
              [] [] "" "") as (_ & _ & _ & _ & _ & _ & H7 & _).
  split; [split; [reflexivity | apply H1; reflexivity] |].
  split; [split; [reflexivity | apply H2; reflexivity] |].
  split; [apply H3; [discriminate | reflexivity] |].
  split; [split; [reflexivity | rewrite H6; reflexivity] |].
  split; [reflexivity|].
  destruct (H7 eq_refl) as (o' & f' & Ea & Hc & _).
  unfold parse_csv_line. rewrite Hc.
  vm_compute in Ea. injection Ea as <- <-. reflexivity.
Defined.

(** ** Unterminated quotes *)

Lemma csv_loop_escape_open s : forall out f,
  csv_loop (escape s) out f true = (out, (f ++ s)%string, true).
Proof.
  induction s as [|c s IH]; intros out f; simpl escape.
  - simpl. now rewrite append_nil_r.
  - destruct (Ascii.eqb c dquote) eqn:Hc.
    + apply Ascii.eqb_eq in Hc; subst c.
      rewrite csv_loop_doubled, IH. now rewrite append_snoc.
    + apply Ascii.eqb_neq in Hc.
      rewrite csv_loop_char, IH; [| assumption | now right].
      now rewrite append_snoc.
Qed.

Lemma ends_in_quotes_not_empty line :
  ends_in_quotes line = true -> exists c r, line = String c r.
Proof. destruct line; [discriminate | eauto]. Qed.

Lemma parse_implicit_close line :
  ends_in_quotes line = true ->
  parse_csv_line (line ++ String dquote "") = parse_csv_line line.
Proof.
  unfold ends_in_quotes, parse_csv_line. intros H.
  destruct (csv_loop line [] "" false) as [[o f] q] eqn:E.
  simpl in H; subst q.
  rewrite (csv_loop_app _ _ _ _ _ _ _ _ E) by (now left).
  now rewrite csv_loop_close_end.
Qed.

(** C8 — a quoted field left open is closed by the end of the line:
    [parse_csv_line] is a total function that always returns at least one
    field; on a line that ends inside quotes it returns what it returns
    when the closing quote is there; a field opened at the start of the
    line or after a top-level comma and never closed has everything up to
    the end of the line as its content; and [apply_message] acts on such a
    line as on the closed one. *)
Theorem parse_csv_line_unterminated (line pre s : string) (st0 : State) :
  (exists p0 ps, parse_csv_line line = p0 :: ps)
  /\ (ends_in_quotes line = true ->
      parse_csv_line (line ++ String dquote "") = parse_csv_line line
      /\ apply_message st0 line = apply_message st0 (line ++ String dquote ""))
  /\ (ends_in_quotes (String dquote (escape s)) = true
      /\ parse_csv_line (String dquote (escape s)) = [strip s])
  /\ (ends_in_quotes pre = false ->
      ends_in_quotes (pre ++ String comma (String dquote (escape s))) = true
      /\ parse_csv_line (pre ++ String comma (String dquote (escape s)))
         = parse_csv_line pre ++ [strip s]).
Proof.
  split; [apply parse_csv_line_cons|].
  split; [| split].
  - intros H. split; [now apply parse_implicit_close|].
    destruct (ends_in_quotes_not_empty line H) as (c & r & ->).
    unfold apply_message.
    change (String c r ++ String dquote "")%string
      with (String c (r ++ String dquote "")).
    change (String.eqb (String c r) "") with false.
    change (String.eqb (String c (r ++ String dquote "")) "") with false.
    cbv iota.
    change (String c (r ++ String dquote ""))
      with (String c r ++ String dquote "")%string.
    now rewrite (parse_implicit_close _ H).
  - unfold ends_in_quotes, parse_csv_line.
    rewrite csv_loop_open, csv_loop_escape_open. now split.
  - intros H. unfold ends_in_quotes, parse_csv_line in *.
    destruct (csv_loop pre [] "" false) as [[o f] q] eqn:E.
    simpl in H; subst q.
    rewrite (csv_loop_app _ _ _ _ _ _ _ _ E) by (now right).
    rewrite csv_loop_comma, csv_loop_open, csv_loop_escape_open.
    now split.
Qed.

Lemma parse_csv_line_unterminated_witness :
  ends_in_quotes ("TM," ++ String dquote "2:03.7") = true
  /\ ends_in_quotes "TM" = false
  /\ parse_csv_line ("TM" ++ String comma (String dquote (escape "2:03.7")))
     = parse_csv_line "TM" ++ [strip "2:03.7"]
  /\ apply_message State_init ("TM," ++ String dquote "2:03.7")
     = apply_message State_init
         (("TM," ++ String dquote "2:03.7") ++ String dquote "")
  /\ clock (apply_message State_init ("TM," ++ String dquote "2:03.7"))
     = "2:03.7".
Proof.
  destruct (parse_csv_line_unterminated ("TM," ++ String dquote "2:03.7")
              "TM" "2:03.7" State_init) as (_ & H2 & _ & H4).
  split; [reflexivity|]. split; [reflexivity|].
  split; [apply H4; reflexivity|].
  split; [apply H2; reflexivity | reflexivity].
Defined.

(** ** The reducer, tag by tag *)

(** Unfolds [apply_message] on a line whose tag [H] gives. *)
Ltac dispatch H :=
  unfold apply_message, tag_of, arg in *;
  match goal with
  | |- context [String.eqb ?line ""] =>
      destruct (String.eqb_spec line "") as [-> | _];
      [vm_compute in H; discriminate H |];
      destruct (parse_csv_line line) as [|p0 ps]; [discriminate H |];
      simpl hd in H; rewrite H
  end.

Lemma apply_CL s line :
  tag_of line = "CL" -> apply_message s line = State_init.
Proof. intros H. dispatch H. reflexivity. Qed.

Lemma apply_SR s line :
  tag_of line = "SR" ->
  apply_message s line
  = {| event := event s; heat := heat s; clock := clock s;
       mode := RESULTS;
       results := lastn 16 (results s ++ [sr_pair line]);
       results_names := lastn 16 (results_names s ++ [sr_name line]);
       result_index := result_index s |}.
Proof. intros H. unfold sr_pair, sr_name. dispatch H. reflexivity. Qed.

Lemma apply_TM s line :
  tag_of line = "TM" ->
  apply_message s line
  = {| event := event s; heat := heat s;
       clock := arg 1 (clock s) line;
       mode := HEADER;
       results := results s; results_names := results_names s;
       result_index := result_index s |}.
Proof. intros H. dispatch H. reflexivity. Qed.

Lemma apply_TX s line :
  tag_of line = "TX" ->
  apply_message s line
  = {| event := arg 1 (event s) line;
       heat := "";
       clock := clock s;
       mode := HEADER;
       results := results s; results_names := results_names s;
       result_index := result_index s |}.
Proof. intros H. dispatch H. reflexivity. Qed.

Lemma apply_RH s line :
  tag_of line = "RH" ->
  apply_message s line
  = {| event := arg 1 "" line;
       heat := arg 4 "" line;
       clock := "0:00";
       mode := HEADER;
       results := results s; results_names := results_names s;
       result_index := result_index s |}.
Proof.
  intros H. dispatch H. cbv beta iota zeta.
  change (String.eqb "RH" "CL") with false. cbv iota.
  change (String.eqb "RH" "RH") with true. cbv iota.
  f_equal.
  destruct (String.eqb_spec (item_or (p0 :: ps) 4 "") "") as [E | _];
    [now rewrite E | reflexivity].
Qed.

Lemma apply_SRMODE_END s line :
  tag_of line = "SRMODE" -> upper (arg 1 "" line) = "END" ->
  apply_message s line = with_mode HEADER s.
Proof.
  intros H HE. dispatch H. cbv beta iota zeta.
  change (String.eqb "SRMODE" "CL") with false.
  change (String.eqb "SRMODE" "RH") with false.
  change (String.eqb "SRMODE" "TM") with false.
  change (String.eqb "SRMODE" "SRMODE") with true.
  cbv iota. rewrite HE.
  change (String.eqb "END" "BEGIN") with false.
  change (String.eqb "END" "END") with true.
  rewrite andb_false_r, andb_true_r.
  destruct ps as [|p1 ps]; [discriminate HE | reflexivity].
Qed.

Lemma apply_other s line :
  ~ In (tag_of line) known_tags -> apply_message s line = s.
Proof.
  intros H. unfold apply_message.
  destruct (String.eqb line ""); [reflexivity|].
  unfold tag_of in H.
  destruct (parse_csv_line line) as [|p0 ps]; [reflexivity|].
  simpl hd in H. cbv zeta.
  repeat match goal with
  | |- context [String.eqb (upper p0) ?t] =>
      destruct (String.eqb_spec (upper p0) t) as [E | _];
      [exfalso; apply H; rewrite E; simpl; tauto |]
  end.
  reflexivity.
Qed.

Lemma blank_tag line : blank line = true -> ~ In (tag_of line) known_tags.
Proof.
  intros H. unfold tag_of. rewrite (parse_csv_line_blank _ H).
  simpl. intuition discriminate.
Qed.

Lemma arg_missing i d line :
  List.length (parse_csv_line line) <= i -> arg i d line = d.
Proof. intros H. unfold arg, item_or. now apply nth_overflow. Qed.

(** C5 — a [CL] line (its tag in any letter case) takes every state to the
    initial one: event and heat empty, clock [0:00], mode [HEADER], no
    results, rotation index 0. *)
Theorem clear_yields_initial (s : State) (line : string) :
  tag_of line = "CL" ->
  apply_message s line = State_init
  /\ State_init = mkState "" "" "0:00" HEADER [] [] 0.
Proof.
  intros H. split; [now apply apply_CL | reflexivity].
Qed.

Lemma clear_yields_initial_witness :
  tag_of "CL" = "CL"
  /\ apply_message busy "CL" = mkState "" "" "0:00" HEADER [] [] 0.
Proof.
  split; [reflexivity|].
  exact (proj1 (clear_yields_initial busy "CL" eq_refl)).
Defined.

(** C6 — a blank line, or a line whose first field is none of [CL], [RH],
    [TM], [SRMODE], [SR], [TX] once upper-cased, leaves the state as it
    is. *)
Theorem unknown_line_is_noop (s : State) (line : string) :
  blank line = true \/ ~ In (tag_of line) known_tags ->
  apply_message s line = s.
Proof.
  intros [H | H]; apply apply_other; [now apply blank_tag | exact H].
Qed.

Lemma unknown_line_is_noop_witness :
  blank "  " = true
  /\ apply_message busy "  " = busy
  /\ ~ In (tag_of "LAP,3") known_tags
  /\ apply_message busy "LAP,3" = busy.
Proof.
  assert (H : ~ In (tag_of "LAP,3") known_tags)
    by (vm_compute; intuition discriminate).
  split; [reflexivity|].
  split; [apply (unknown_line_is_noop busy "  "); left; reflexivity|].
  split; [exact H|].
  apply (unknown_line_is_noop busy "LAP,3"). right. exact H.
Defined.

(** C9 — [SRMODE,END] sets the mode to [HEADER] and changes nothing else:
    results and their names, event, heat, clock and rotation index stay; an
    [SR] line after it appends its entry to the results kept (within the
    window of 16) and puts the mode back to [RESULTS]. *)
Theorem srmode_end_keeps_results (s : State) (line sr : string) :
  tag_of line = "SRMODE" -> upper (arg 1 "" line) = "END" ->
  tag_of sr = "SR" ->
  let s1 := apply_message s line in
  let s2 := apply_message s1 sr in
  (mode s1 = HEADER
   /\ results s1 = results s /\ results_names s1 = results_names s
   /\ event s1 = event s /\ heat s1 = heat s /\ clock s1 = clock s
   /\ result_index s1 = result_index s)
  /\ mode s2 = RESULTS
  /\ results s2 = lastn 16 (results s ++ [sr_pair sr])
  /\ results_names s2 = lastn 16 (results_names s ++ [sr_name sr])
  /\ (List.length (results s) < 16 ->
      results s2 = results s ++ [sr_pair sr])
  /\ (List.length (results_names s) < 16 ->
      results_names s2 = results_names s ++ [sr_name sr]).
Proof.
  intros Ht He Hsr s1 s2. subst s2 s1.
  rewrite (apply_SRMODE_END s line Ht He), (apply_SR _ sr Hsr).
  simpl. repeat split; trivial.
  - intros Hl. apply lastn_all. rewrite length_app. simpl. lia.
  - intros Hl. apply lastn_all. rewrite length_app. simpl. lia.
Qed.

Lemma srmode_end_keeps_results_witness :
  apply_message busy "SRMODE,END" = with_mode HEADER busy
  /\ mode (apply_message (apply_message busy "srmode, end") "SR,3,Diaz,4:25.0")
     = RESULTS
  /\ results (apply_message (apply_message busy "srmode, end") "SR,3,Diaz,4:25.0")
     = [("1", "4:23.6"); ("2", "4:24.1"); ("3", "4:25.0")].
Proof.
  pose proof (srmode_end_keeps_results busy "srmode, end" "SR,3,Diaz,4:25.0"
                eq_refl eq_refl eq_refl) as H.
  cbv zeta in H. destruct H as (_ & Hm & _ & _ & Hr & _).
  split; [reflexivity|]. split; [exact Hm|].
  apply Hr. simpl. lia.
Defined.

(** ** Missing arguments *)

(** C3, as claimed, fails: a bare [TM] line leaves the clock as it was and a
    bare [TX] line leaves the event as it was. *)
Lemma bare_TM_TX_counterexample :
  clock (apply_message State_init "TM") = "0:00"
  /\ clock (apply_message State_init "TM") <> ""
  /\ event (apply_message busy "TX") = "Boys 1600m"
  /\ event (apply_message busy "TX") <> "".
Proof. repeat split; try reflexivity; discriminate. Qed.

(** C3, amended — no line makes [apply_message] fail, and an argument that
    is missing reads as its default: the empty string for the arguments of
    [RH] and [SR], the current clock for [TM] and the current event for
    [TX].  So a bare [TM] line only forces the mode to [HEADER], and a bare
    [TX] line only empties the heat and forces the mode to [HEADER]. *)
Theorem missing_argument_default (s : State) (line : string) :
  (forall i d, List.length (parse_csv_line line) <= i -> arg i d line = d)
  /\ (tag_of line = "RH" ->
      event (apply_message s line) = arg 1 "" line
      /\ heat (apply_message s line) = arg 4 "" line)
  /\ (tag_of line = "SR" ->
      results (apply_message s line)
      = lastn 16 (results s ++ [(arg 1 "" line, arg 3 "" line)])
      /\ results_names (apply_message s line)
         = lastn 16 (results_names s ++ [arg 2 "" line]))
  /\ (tag_of line = "TM" ->
      clock (apply_message s line) = arg 1 (clock s) line
      /\ (List.length (parse_csv_line line) = 1 ->
          apply_message s line = with_mode HEADER s))
  /\ (tag_of line = "TX" ->
      event (apply_message s line) = arg 1 (event s) line
      /\ (List.length (parse_csv_line line) = 1 ->
          apply_message s line
          = {| event := event s; heat := ""; clock := clock s;
               mode := HEADER;
               results := results s; results_names := results_names s;
               result_index := result_index s |})).
Proof.
  split; [intros i d; apply arg_missing|].
  split; [intros H; now rewrite (apply_RH s line H)|].
  split; [intros H; now rewrite (apply_SR s line H)|].
  split; intros H.
  - rewrite (apply_TM s line H). split; [reflexivity|].
    intros Hl. rewrite arg_missing by lia. reflexivity.
  - rewrite (apply_TX s line H). split; [reflexivity|].
    intros Hl. rewrite arg_missing by lia. reflexivity.
Qed.

Lemma missing_argument_default_witness :
  apply_message busy "TM" = with_mode HEADER busy
  /\ event (apply_message busy "TX") = event busy
  /\ heat (apply_message busy "RH,Girls 800m") = ""
  /\ results_names (apply_message busy "SR,3") = ["Riley"; "Chen"; ""]
  /\ arg 1 "" "SR" = "".
Proof.
  destruct (missing_argument_default busy "TM") as (_ & _ & _ & HTM & _).
  destruct (missing_argument_default busy "TX") as (_ & _ & _ & _ & HTX).
  destruct (missing_argument_default busy "RH,Girls 800m") as (_ & HRH & _).
  destruct (missing_argument_default busy "SR,3") as (_ & _ & HSR & _).
  destruct (missing_argument_default busy "SR") as (Harg & _).
  split; [apply (proj2 (HTM eq_refl)); reflexivity|].
  split; [rewrite (proj1 (HTX eq_refl)); reflexivity|].
  split; [rewrite (proj2 (HRH eq_refl)); reflexivity|].
  split; [rewrite (proj2 (HSR eq_refl)); reflexivity|].
  apply Harg. simpl. lia.
Defined.

(** ** The window of 16 results *)

Lemma drain_snoc s lines line :
  drain s (lines ++ [line]) = apply_message (drain s lines) line.
Proof. unfold drain. now rewrite fold_left_app. Qed.

Lemma drain_SR lines : forall s,
  Forall (fun l => tag_of l = "SR") lines -> lines <> [] ->
  drain s lines
  = {| event := event s; heat := heat s; clock := clock s;
       mode := RESULTS;
       results := lastn 16 (results s ++ map sr_pair lines);
       results_names := lastn 16 (results_names s ++ map sr_name lines);
       result_index := result_index s |}.
Proof.
  induction lines as [|line lines IH] using rev_ind; intros s Hall Hne;
    [congruence|].
  apply Forall_app in Hall as [Hall Hline].
  apply Forall_inv in Hline.
  rewrite drain_snoc, (apply_SR _ line Hline), !map_app. simpl map.
  destruct lines as [|l0 lines'].
  - reflexivity.
  - rewrite (IH s Hall) by discriminate. simpl.
    rewrite !lastn_snoc by lia. now rewrite <- !app_assoc.
Qed.

(** C4 — over any sequence of [SR] lines, from any state: the results never
    number more than 16 once a line has been applied (nor before, when the
    starting state holds at most 16); the lists are the last 16 of the old
    entries followed by the new ones in arrival order; the mode is
    [RESULTS]; and after more than 16 lines what is left is exactly the last
    16 entries inserted, oldest first. *)
Theorem results_window (s : State) (lines : list string) :
  Forall (fun l => tag_of l = "SR") lines ->
  (forall k, (0 < k /\ lines <> []) \/ List.length (results s) <= 16 ->
     List.length (results (drain s (firstn k lines))) <= 16)
  /\ (lines <> [] ->
      results (drain s lines) = lastn 16 (results s ++ map sr_pair lines)
      /\ results_names (drain s lines)
         = lastn 16 (results_names s ++ map sr_name lines)
      /\ mode (drain s lines) = RESULTS)
  /\ (16 < List.length lines ->
      let ents := lastn 16 (map entry_of lines) in
      List.length ents = 16
      /\ results (drain s lines) = map (fun e => (place e, mark e)) ents
      /\ results_names (drain s lines) = map name ents).
Proof.
  intros Hall. split; [| split].
  - intros k Hk.
    destruct (firstn k lines) as [|l0 ls] eqn:E.
    + destruct Hk as [[Hk Hne] | Hlen]; [| exact Hlen].
      destruct k; [lia|]. destruct lines; [congruence | discriminate].
    + rewrite drain_SR; [apply lastn_length_le | | discriminate].
      rewrite <- E. rewrite <- (firstn_skipn k lines) in Hall.
      now apply Forall_app in Hall.
  - intros Hne. rewrite (drain_SR lines s Hall Hne). auto.
  - intros Hlen ents. subst ents.
    assert (Hne : lines <> []) by (destruct lines; [simpl in Hlen; lia | discriminate]).
    rewrite (drain_SR lines s Hall Hne). simpl.
    rewrite !lastn_app_long by (rewrite length_map; lia).
    rewrite <- !lastn_map, !map_map.
    split; [apply lastn_exact; rewrite length_map; lia|].
    split; reflexivity.
Qed.

Lemma results_window_witness :
  Forall (fun l => tag_of l = "SR") seventeen
  /\ List.length (results (drain busy seventeen)) <= 16
  /\ results (drain busy seventeen)
     = [("2", "62"); ("3", "63"); ("4", "64"); ("5", "65"); ("6", "66");
        ("7", "67"); ("8", "68"); ("9", "69"); ("10", "70"); ("11", "71");
        ("12", "72"); ("13", "73"); ("14", "74"); ("15", "75"); ("16", "76");
        ("17", "77")]
  /\ results_names (drain busy seventeen)
     = ["b"; "c"; "d"; "e"; "f"; "g"; "h"; "i"; "j"; "k"; "l"; "m"; "n";
        "o"; "p"; "q"]
  /\ mode (drain busy seventeen) = RESULTS.
Proof.
  assert (HF : Forall (fun l => tag_of l = "SR") seventeen)
    by (unfold seventeen; repeat (constructor; [reflexivity|]); constructor).
  destruct (results_window busy seventeen HF) as (H1 & H2 & H3).
  assert (Hlen : 16 < List.length seventeen) by (simpl; lia).
  assert (Hne : seventeen <> []) by discriminate.
  specialize (H1 17 (or_introl (conj (Nat.lt_0_succ 16) Hne))).
  destruct (H2 Hne) as (_ & _ & Hm).
  destruct (H3 Hlen) as (_ & Hr & Hn).
  split; [exact HF|]. split; [exact H1|].
  split; [rewrite Hr; reflexivity|].
  split; [rewrite Hn; reflexivity | exact Hm].
Defined.

(** ** Rotation *)

Lemma rotate_fields r now l :
  results (st (rotate r now l)) = results (st l)
  /\ results_names (st (rotate r now l)) = results_names (st l)
  /\ mode (st (rotate r now l)) = mode (st l)
  /\ result_index (st (rotate r now l))
     = result_index (st l) + (if rotates now l then 1 else 0).
Proof.
  unfold rotate, rotates.
  destruct (in_results (st l)); [destruct (next_rotate l <=? now)%Z |];
    simpl; repeat split; lia.
Qed.

Lemma iteration_idle r l now : iteration r l ([], now) = rotate r now l.
Proof. destruct l. reflexivity. Qed.

Lemma run_idle r nows : forall l,
  results (st (run r l (idle nows))) = results (st l)
  /\ mode (st (run r l (idle nows))) = mode (st l)
  /\ result_index (st (run r l (idle nows)))
     = result_index (st l) + rotation_ticks r l nows.
Proof.
  induction nows as [|now nows IH]; intros l.
  - simpl. repeat split; lia.
  - change (run r l (idle (now :: nows)))
      with (run r (iteration r l ([], now)) (idle nows)).
    rewrite iteration_idle.
    destruct (IH (rotate r now l)) as (Hr & Hm & Hi).
    destruct (rotate_fields r now l) as (Hr' & _ & Hm' & Hi').
    rewrite Hr, Hm, Hi, Hr', Hm', Hi'. simpl rotation_ticks.
    repeat split; lia.
Qed.

Lemma shown_index_eq s :
  results s <> [] ->
  shown_index s = Some (result_index s mod List.length (results s)).
Proof. unfold shown_index. destruct (results s); [congruence | reflexivity]. Qed.

Lemma in_results_true s :
  in_results s = true -> mode s = RESULTS /\ results s <> [].
Proof.
  unfold in_results. destruct (mode s); [discriminate|].
  destruct (results s); [discriminate|]. split; [reflexivity | discriminate].
Qed.

(** C1, as claimed, fails: with two results on the board and the index at 0,
    two rotation ticks leave the stored index at 2, not at [2 mod 2]. *)
Lemma stored_index_counterexample :
  run 2 (Loop_init 2 0)
      [(["SRMODE,BEGIN"; "SR,1,Riley,4:23.6"; "SR,2,Chen,4:24.1"], 0%Z)]
  = showing
  /\ List.length (results (st showing)) = 2
  /\ rotation_ticks 2 showing [2%Z; 4%Z] = 2
  /\ result_index (st (run 2 showing (idle [2%Z; 4%Z]))) = 2
  /\ result_index (st (run 2 showing (idle [2%Z; 4%Z]))) <> 2 mod 2.
Proof. repeat split; try reflexivity. discriminate. Qed.

(** C1, amended — the stored index only counts: after [K] rotation ticks it
    is its starting value plus [K], each rotation tick adding 1.  The
    modulus is taken when the index is read: over results of length [L > 0]
    the entry shown after the ticks is the one at (start + [K]) mod [L],
    that is at [K mod L] from a start at 0, and a rotation tick moves the
    shown position from [p] to [(p + 1) mod L]. *)
Theorem rotation_index_after_ticks (rotate_sec : Z) (l : Loop) (nows : list Z) :
  in_results (st l) = true ->
  let K := rotation_ticks rotate_sec l nows in
  let L := List.length (results (st l)) in
  let l' := run rotate_sec l (idle nows) in
  result_index (st l') = result_index (st l) + K
  /\ results (st l') = results (st l)
  /\ shown_index (st l') = Some ((result_index (st l) + K) mod L)
  /\ (result_index (st l) = 0 -> shown_index (st l') = Some (K mod L))
  /\ (forall now p, rotates now l = true -> shown_index (st l) = Some p ->
      result_index (st (rotate rotate_sec now l)) = result_index (st l) + 1
      /\ shown_index (st (rotate rotate_sec now l)) = Some ((p + 1) mod L)).
Proof.
  intros Hin K L l'. subst K L l'.
  destruct (in_results_true _ Hin) as [_ Hne].
  destruct (run_idle rotate_sec nows l) as (Hr & _ & Hi).
  assert (Hs : shown_index (st (run rotate_sec l (idle nows)))
               = Some ((result_index (st l) + rotation_ticks rotate_sec l nows)
                       mod List.length (results (st l)))).
  { rewrite shown_index_eq by (now rewrite Hr). now rewrite Hr, Hi. }
  split; [exact Hi|]. split; [exact Hr|]. split; [exact Hs|].
  split; [intros H0; now rewrite Hs, H0|].
  intros now p Hrot Hp.
  destruct (rotate_fields rotate_sec now l) as (Hr' & _ & _ & Hi').
  rewrite Hrot in Hi'. split; [exact Hi'|].
  rewrite shown_index_eq in Hp by assumption. injection Hp as <-.
  rewrite shown_index_eq by (now rewrite Hr').
  rewrite Hr', Hi'. f_equal.
  now rewrite Nat.Div0.add_mod_idemp_l.
Qed.

Lemma rotation_index_after_ticks_witness :
  in_results (st showing) = true
  /\ result_index (st (run 2 showing (idle [2%Z; 3%Z; 4%Z; 6%Z]))) = 3
  /\ shown_index (st (run 2 showing (idle [2%Z; 3%Z; 4%Z; 6%Z]))) = Some 1.
Proof.
  pose proof (rotation_index_after_ticks 2 showing [2%Z; 3%Z; 4%Z; 6%Z]
                eq_refl) as H.
  cbv zeta in H. destruct H as (Hi & _ & _ & H0 & _).
  split; [reflexivity|]. split; [rewrite Hi; reflexivity|].
  rewrite H0; reflexivity.
Defined.

(** ** The two lists move together *)

Lemma apply_keeps_lists s line :
  tag_of line <> "CL" -> tag_of line <> "SR" ->
  results (apply_message s line) = results s
  /\ results_names (apply_message s line) = results_names s.
Proof.
  unfold apply_message, tag_of. intros HCL HSR.
  destruct (String.eqb line ""); [auto|].
  destruct (parse_csv_line line) as [|p0 ps]; [auto|].
  simpl hd in *. cbv zeta.
  destruct (String.eqb_spec (upper p0) "CL"); [contradiction|].
  destruct (String.eqb (upper p0) "RH"); [auto|].
  destruct (String.eqb (upper p0) "TM"); [auto|].
  destruct (String.eqb (upper p0) "SRMODE").
  { destruct (_ && _); [auto|]. destruct (_ && _); auto. }
  destruct (String.eqb_spec (upper p0) "SR"); [contradiction|].
  destruct (String.eqb (upper p0) "TX"); auto.
Qed.

Lemma step_holds ents s line :
  holds ents s -> List.length ents <= 16 ->
  holds (spec_results_step ents line) (apply_message s line)
  /\ List.length (spec_results_step ents line) <= 16.
Proof.
  intros [Hr Hn] Hlen. unfold spec_results_step.
  destruct (String.eqb_spec line "") as [-> | _].
  { split; [split; assumption | assumption]. }
  destruct (String.eqb_spec (tag_of line) "CL") as [HCL | HCL].
  { rewrite (apply_CL s line HCL). split; [split; reflexivity | simpl; lia]. }
  destruct (String.eqb_spec (tag_of line) "SR") as [HSR | HSR].
  - rewrite (apply_SR s line HSR). unfold holds. simpl results.
    simpl results_names. rewrite Hr, Hn.
    change [sr_pair line] with (map pair_of [entry_of line]).
    change [sr_name line] with (map name [entry_of line]).
    rewrite <- !map_app, !lastn_map.
    assert (Hl : List.length (ents ++ [entry_of line]) = S (List.length ents))
      by (rewrite length_app; simpl; lia).
    destruct (Nat.ltb_spec 16 (List.length (ents ++ [entry_of line]))) as [H | H].
    + rewrite (tl_lastn 16) by lia.
      split; [split; reflexivity | apply lastn_length_le].
    + rewrite lastn_all by lia. split; [split; reflexivity | lia].
  - destruct (apply_keeps_lists s line HCL HSR) as [Hr' Hn'].
    split; [split; congruence | assumption].
Qed.

Lemma drain_holds lines : forall ents s,
  holds ents s -> List.length ents <= 16 ->
  holds (fold_left spec_results_step lines ents) (drain s lines)
  /\ List.length (fold_left spec_results_step lines ents) <= 16.
Proof.
  induction lines as [|line lines IH]; intros ents s H Hlen; [now split|].
  destruct (step_holds ents s line H Hlen) as [H' Hlen'].
  exact (IH _ _ H' Hlen').
Qed.

Lemma run_holds r its : forall ents l,
  holds ents (st l) -> List.length ents <= 16 ->
  holds (fold_left spec_results_step (queued its) ents) (st (run r l its))
  /\ List.length (fold_left spec_results_step (queued its) ents) <= 16.
Proof.
  induction its as [|[lines now] its IH]; intros ents l H Hlen; [now split|].
  unfold queued. simpl List.concat. rewrite fold_left_app.
  destruct (drain_holds lines ents (st l) H Hlen) as [[Hr Hn] Hlen'].
  apply IH; [| exact Hlen'].
  unfold iteration. simpl fst. simpl snd.
  destruct (rotate_fields r now {| st := drain (st l) lines;
                                   next_rotate := next_rotate l |})
    as (Hr' & Hn' & _).
  split; [now rewrite Hr' | now rewrite Hn'].
Qed.

Lemma holds_length ents s :
  holds ents s -> List.length (results s) = List.length (results_names s).
Proof. intros [-> ->]. now rewrite !length_map. Qed.

(** C10 — whatever lines are applied from the initial state, [results] and
    [results_names] have the same length and go position by position: the
    [(place, mark)] pair at [i] and the name at [i] are the two halves of
    the [i]-th entry of one list of at most 16 entries, the one the
    specification describes (appended by [SR], oldest dropped beyond 16,
    emptied by [CL]). *)
Theorem parallel_lists (lines : list string) :
  let s := drain State_init lines in
  let ents := spec_results lines in
  List.length (results s) = List.length (results_names s)
  /\ List.length ents <= 16
  /\ results s = map (fun e => (place e, mark e)) ents
  /\ results_names s = map name ents
  /\ (forall i p m, nth_error (results s) i = Some (p, m) ->
      exists n, nth_error (results_names s) i = Some n
                /\ nth_error ents i = Some {| place := p; name := n; mark := m |}).
Proof.
  intros s ents. subst s ents. unfold spec_results.
  destruct (drain_holds lines [] State_init (conj eq_refl eq_refl))
    as [H Hlen]; [simpl; lia|].
  split; [exact (holds_length _ _ H)|]. split; [exact Hlen|].
  destruct H as [Hr Hn]. split; [exact Hr|]. split; [exact Hn|].
  intros i p m Hi. rewrite Hr in Hi. rewrite Hn.
  rewrite nth_error_map in Hi. rewrite nth_error_map.
  destruct (nth_error (fold_left spec_results_step lines []) i) as [[p' n' m']|];
    [| discriminate].
  simpl in Hi. injection Hi as -> ->. simpl. eauto.
Qed.

Lemma parallel_lists_witness :
  nth_error (results (drain State_init ("SR,0,z,60" :: seventeen))) 15
  = Some ("17", "77")
  /\ nth_error (results_names (drain State_init ("SR,0,z,60" :: seventeen))) 15
     = Some "q".
Proof.
  destruct (parallel_lists ("SR,0,z,60" :: seventeen)) as (_ & _ & _ & _ & H).
  destruct (H 15 "17" "77" eq_refl) as (n & Hn & He).
  split; [reflexivity|].
  rewrite Hn. f_equal. vm_compute in He. now injection He as <-.
Defined.

(** ** The index the renderer reads *)

Lemma shown_index_lt s i :
  shown_index s = Some i -> i < List.length (results s).
Proof.
  unfold shown_index. destruct (results s) as [|r rs]; [discriminate|].
  intros H.
  assert (E : i = result_index s mod List.length (r :: rs)) by congruence.
  rewrite E. apply Nat.mod_upper_bound. discriminate.
Qed.

(** C2, as claimed, fails on the stored index: one result and one rotation
    tick from the initial state leave it at 1 over a list of length 1. *)
Lemma stored_index_bound_counterexample :
  result_index (st (run 2 (Loop_init 2 0) [(["SR,1,Riley,4:23.6"], 5%Z)])) = 1
  /\ List.length
       (results (st (run 2 (Loop_init 2 0) [(["SR,1,Riley,4:23.6"], 5%Z)])))
     = 1
  /\ ~ (result_index (st (run 2 (Loop_init 2 0) [(["SR,1,Riley,4:23.6"], 5%Z)]))
        < Nat.max
            (List.length
               (results
                  (st (run 2 (Loop_init 2 0) [(["SR,1,Riley,4:23.6"], 5%Z)]))))
            1).
Proof.
  split; [reflexivity|]. split; [reflexivity|].
  vm_compute. intros H. apply Nat.lt_irrefl in H. exact H.
Qed.

(** C2, amended — the bound holds for the index that is read, not for the
    one stored: on every state [render_results] reads the lists at
    [result_index mod len(results)], which is below [len(results)] (so below
    [max(len(results), 1)]), and reads no index when [results] is empty;
    after any iterations of the main loop from its initial state, drains and
    rotation steps alike, both lists are long enough for that read and
    [render] yields a frame. *)
Theorem shown_index_in_range (rotate_sec t0 : Z)
  (its : list (list string * Z)) (s0 : State) :
  let s := st (run rotate_sec (Loop_init rotate_sec t0) its) in
  (forall i, shown_index s0 = Some i ->
     i = result_index s0 mod List.length (results s0)
     /\ i < List.length (results s0)
     /\ i < Nat.max (List.length (results s0)) 1)
  /\ (shown_index s0 = None <-> results s0 = [])
  /\ (forall i, shown_index s = Some i ->
      i < List.length (results s) /\ i < List.length (results_names s))
  /\ render s <> None.
Proof.
  intros s.
  assert (Hpar : List.length (results s) = List.length (results_names s)).
  { destruct (run_holds rotate_sec its [] (Loop_init rotate_sec t0)
                (conj eq_refl eq_refl)) as [H _]; [simpl; lia|].
    exact (holds_length _ _ H). }
  split; [| split; [| split]].
  - intros i Hi. pose proof (shown_index_lt _ _ Hi) as Hlt.
    split; [| split; lia].
    unfold shown_index in Hi. destruct (results s0); [discriminate|].
    congruence.
  - unfold shown_index. destruct (results s0); split; intros; congruence.
  - intros i Hi. pose proof (shown_index_lt _ _ Hi). lia.
  - unfold render, render_results. destruct (mode s); [discriminate|].
    destruct (shown_index s) as [i|] eqn:Hi; [| discriminate].
    pose proof (shown_index_lt _ _ Hi) as Hlt.
    destruct (nth_error (results s) i) as [[p m]|] eqn:Er.
    + destruct (nth_error (results_names s) i) eqn:En; [discriminate|].
      apply nth_error_None in En. lia.
    + apply nth_error_None in Er. lia.
Qed.

Lemma shown_index_in_range_witness :
  shown_index (st (run 2 showing (idle [2%Z; 4%Z; 6%Z]))) = Some 1
  /\ 1 < Nat.max
           (List.length (results (st (run 2 showing (idle [2%Z; 4%Z; 6%Z])))))
           1
  /\ render (st (run 2 (Loop_init 2 0) [(["SR,1,Riley,4:23.6"], 5%Z)]))
     <> None.
Proof.
  destruct (shown_index_in_range 2 0 [(["SR,1,Riley,4:23.6"], 5%Z)]
              (st (run 2 showing (idle [2%Z; 4%Z; 6%Z]))))
    as (H1 & _ & _ & H4).
  split; [reflexivity|].
  split; [exact (proj2 (proj2 (H1 1 eq_refl))) | exact H4].
Defined.

(** * Further properties of the receiver *)

(** ** Whitespace around a line *)

Lemma blank_app a b : blank (a ++ b) = blank a && blank b.
Proof.
  induction a as [|c a IH]; simpl; [reflexivity|].
  now rewrite IH, andb_assoc.
Qed.

Lemma lstrip_split s : exists ws, blank ws = true /\ s = (ws ++ lstrip s)%string.
Proof.
  induction s as [|c s (ws & Hws & IH)]; [now exists ""|].
  simpl. destruct (isspace c) eqn:Hc.
  - exists (String c ws). simpl. rewrite Hc, Hws. split; [reflexivity|].
    now rewrite <- IH.
  - now exists "".
Qed.

Lemma rstrip_split s : exists ws, blank ws = true /\ s = (rstrip s ++ ws)%string.
Proof.
  induction s as [|c s (ws & Hws & IH)]; [now exists ""|].
  rewrite rstrip_cons. destruct (rstrip s) as [|x y] eqn:E.
  - simpl in IH. subst s. destruct (isspace c) eqn:Hc.
    + exists (String c ws). simpl. now rewrite Hc, Hws.
    + exists ws. split; [assumption | reflexivity].
  - exists ws. split; [assumption|]. simpl. simpl in IH. now rewrite <- IH.
Qed.

Lemma lstrip_app_blank ws x : blank ws = true -> lstrip (ws ++ x) = lstrip x.
Proof.
  induction ws as [|c ws IH]; simpl; [reflexivity|].
  intros H. apply andb_true_iff in H as [Hc Hws]. rewrite Hc. now apply IH.
Qed.

Lemma lstrip_app_solid f g :
  blank f = false -> lstrip (f ++ g) = (lstrip f ++ g)%string.
Proof.
  induction f as [|c f IH]; simpl; [discriminate|].
  destruct (isspace c); simpl; [exact IH | reflexivity].
Qed.

Lemma rstrip_blank ws : blank ws = true -> rstrip ws = "".
Proof.
  induction ws as [|c ws IH]; [reflexivity|].
  simpl blank. intros H. apply andb_true_iff in H as [Hc Hws].
  rewrite rstrip_cons, (IH Hws). now rewrite Hc.
Qed.

Lemma rstrip_app_blank x ws :
  blank ws = true -> rstrip (x ++ ws) = rstrip x.
Proof.
  intros H. induction x as [|c x IH]; [now apply rstrip_blank|].
  simpl append. now rewrite !rstrip_cons, IH.
Qed.

Lemma strip_app_blank_l ws x : blank ws = true -> strip (ws ++ x) = strip x.
Proof. intros H. unfold strip. now rewrite lstrip_app_blank. Qed.

Lemma strip_app_blank_r f ws : blank ws = true -> strip (f ++ ws) = strip f.
Proof.
  intros H. unfold strip. destruct (blank f) eqn:Hf.
  - rewrite lstrip_app_blank by assumption.
    fold (strip ws). fold (strip f). now rewrite !strip_blank.
  - rewrite lstrip_app_solid by assumption. now apply rstrip_app_blank.
Qed.

Lemma strip_alike_snoc f1 f2 y :
  strip_alike f1 f2 -> strip_alike (f1 ++ y) (f2 ++ y).
Proof. intros H x. rewrite !append_assoc. apply H. Qed.

Lemma strip_alike_strip f1 f2 : strip_alike f1 f2 -> strip f1 = strip f2.
Proof. intros H. specialize (H ""). now rewrite !append_nil_r in H. Qed.

(** The loop does not see the difference between alike fields. *)
Lemma csv_loop_alike line out f1 q : forall f2,
  strip_alike f1 f2 ->
  exists o g1 g2 q',
    csv_loop line out f1 q = (o, g1, q')
    /\ csv_loop line out f2 q = (o, g2, q')
    /\ strip_alike g1 g2.
Proof.
  functional induction (csv_loop line out f1 q); intros f2 H.
  - exists out, field, f2, in_quotes. auto.
  - apply Ascii.eqb_eq in e0; subst c. simpl.
    exists out, field, f2, false. auto.
  - apply Ascii.eqb_eq in e0, e3; subst c c'.
    rewrite csv_loop_doubled. apply IHp. now apply strip_alike_snoc.
  - apply Ascii.eqb_eq in e0; subst c. apply Ascii.eqb_neq in e3.
    rewrite csv_loop_close by assumption. now apply IHp.
  - apply Ascii.eqb_eq in e0; subst c.
    rewrite csv_loop_open. now apply IHp.
  - apply andb_true_iff in e1 as [Hc Hq].
    apply Ascii.eqb_eq in Hc; subst c.
    destruct in_quotes; [discriminate|].
    rewrite csv_loop_comma, <- (strip_alike_strip _ _ H).
    apply IHp. intros x. reflexivity.
  - apply Ascii.eqb_neq in e0.
    rewrite (csv_loop_char c rest out f2); [| assumption |].
    + apply IHp. now apply strip_alike_snoc.
    + apply andb_false_iff in e1 as [Hc | Hq];
        [left; now apply Ascii.eqb_neq | right; now destruct in_quotes].
Qed.

Lemma parse_leading_blank ws l :
  blank ws = true -> parse_csv_line (ws ++ l) = parse_csv_line l.
Proof.
  intros H. destruct (blank_no_sep ws H) as [Hq Hk].
  unfold parse_csv_line. rewrite csv_loop_run by auto. simpl append.
  destruct (csv_loop_alike l [] ws false "") as (o & g1 & g2 & q' & E1 & E2 & Hg).
  { intros x. now apply strip_app_blank_l. }
  rewrite E1, E2. now rewrite (strip_alike_strip _ _ Hg).
Qed.

Lemma parse_trailing_blank l ws :
  blank ws = true -> parse_csv_line (l ++ ws) = parse_csv_line l.
Proof.
  intros H. destruct (blank_no_sep ws H) as [Hq Hk].
  unfold parse_csv_line.
  destruct (csv_loop l [] "" false) as [[o f] q] eqn:E.
  rewrite (csv_loop_app _ _ _ _ _ _ _ _ E).
  - rewrite <- (append_nil_r ws), csv_loop_run by auto. simpl.
    now rewrite strip_app_blank_r.
  - right. destruct ws as [|c ws]; [reflexivity|].
    simpl in Hq. now apply orb_false_iff in Hq.
Qed.

Lemma strip_split l :
  exists ws1 ws2, blank ws1 = true /\ blank ws2 = true
                  /\ l = (ws1 ++ strip l ++ ws2)%string.
Proof.
  destruct (lstrip_split l) as (ws1 & H1 & E1).
  destruct (rstrip_split (lstrip l)) as (ws2 & H2 & E2).
  exists ws1, ws2. unfold strip. now rewrite <- E2.
Qed.

Lemma parse_strip l : parse_csv_line (strip l) = parse_csv_line l.
Proof.
  destruct (strip_split l) as (ws1 & ws2 & H1 & H2 & E).
  rewrite E at 2.
  now rewrite parse_leading_blank, parse_trailing_blank.
Qed.

Lemma strip_empty_blank l : strip l = "" -> blank l = true.
Proof.
  intros H. destruct (strip_split l) as (ws1 & ws2 & H1 & H2 & E).
  rewrite E, H. simpl. now rewrite blank_app, H1, H2.
Qed.

Lemma apply_strip s l : apply_message s (strip l) = apply_message s l.
Proof.
  destruct (blank l) eqn:Hb.
  - rewrite (strip_blank l Hb).
    symmetry. apply apply_other. now apply blank_tag.
  - unfold apply_message.
    destruct (String.eqb_spec (strip l) "") as [E | _].
    { apply strip_empty_blank in E. congruence. }
    destruct (String.eqb_spec l "") as [-> | _]; [discriminate Hb|].
    now rewrite parse_strip.
Qed.

(** X1 — whitespace around a line never matters: a line with blanks before
    and after it parses to the same fields as the line itself, and so does
    the line as the receiver strips it; [apply_message] takes every state to
    the same state on the three. *)
Theorem surrounding_whitespace_ignored (s : State) (l ws1 ws2 : string) :
  blank ws1 = true -> blank ws2 = true ->
  parse_csv_line (ws1 ++ l ++ ws2) = parse_csv_line l
  /\ parse_csv_line (strip l) = parse_csv_line l
  /\ apply_message s (strip l) = apply_message s l
  /\ apply_message s (strip (ws1 ++ l ++ ws2)) = apply_message s (strip l).
Proof.
  intros H1 H2.
  split; [now rewrite parse_leading_blank, parse_trailing_blank|].
  split; [apply parse_strip|]. split; [apply apply_strip|].
  f_equal. unfold strip.
  rewrite lstrip_app_blank by assumption.
  destruct (blank l) eqn:Hl.
  - rewrite lstrip_app_blank by assumption.
    fold (strip ws2). fold (strip l). now rewrite !strip_blank.
  - rewrite lstrip_app_solid by assumption. now apply rstrip_app_blank.
Qed.

Lemma surrounding_whitespace_ignored_witness :
  parse_csv_line ("  " ++ "TM, 2:03.7" ++ String "009" " ") = ["TM"; "2:03.7"]
  /\ apply_message busy (strip (String "009" "cl "))
     = apply_message busy (String "009" "cl ").
Proof.
  destruct (surrounding_whitespace_ignored busy "TM, 2:03.7" "  "
              (String "009" " ") eq_refl eq_refl) as (H1 & _).
  destruct (surrounding_whitespace_ignored busy (String "009" "cl ") "" ""
              eq_refl eq_refl) as (_ & _ & H3 & _).
  split; [rewrite H1; reflexivity | exact H3].
Defined.

(** ** Lines put on the queue *)

Lemma splitlines_from_LF rest cur :
  splitlines_from (String LF rest) cur = cur :: splitlines_from rest "".
Proof. destruct rest; reflexivity. Qed.

Lemma splitlines_from_run l : forall rest cur,
  has_linebreak l = false ->
  splitlines_from (l ++ rest) cur = splitlines_from rest (cur ++ l).
Proof.
  induction l as [|c l IH]; intros rest cur H; simpl append.
  - now rewrite append_nil_r.
  - simpl in H. apply orb_false_iff in H as [Hc Hl].
    cbn [splitlines_from]. rewrite Hc, IH by assumption.
    now rewrite append_snoc.
Qed.

Lemma splitlines_from_break c c' r' cur :
  is_linebreak c = true ->
  splitlines_from (String c (String c' r')) cur
  = if Ascii.eqb c CR && Ascii.eqb c' LF
    then cur :: splitlines_from r' ""
    else cur :: splitlines_from (String c' r') "".
Proof. intros H. cbn [splitlines_from]. now rewrite H. Qed.

(** A newline ends what came before it: the text after it is split on its
    own. *)
Lemma splitlines_from_cut a cur b :
  splitlines_from (a ++ String LF b) cur
  = splitlines_from (a ++ String LF "") cur ++ splitlines_from b "".
Proof.
  functional induction (splitlines_from a cur); simpl append.
  - now rewrite !splitlines_from_LF.
  - now rewrite !splitlines_from_LF.
  - rewrite !splitlines_from_break by assumption.
    change (Ascii.eqb LF LF) with true.
    destruct (Ascii.eqb c CR); cbn [andb];
      [reflexivity | now rewrite !splitlines_from_LF].
  - rewrite !splitlines_from_break by assumption.
    match goal with H : (_ && _) = true |- _ => rewrite H end.
    simpl. now rewrite IHl.
  - rewrite !splitlines_from_break by assumption.
    match goal with H : (_ && _) = false |- _ => rewrite H end.
    simpl. f_equal. exact IHl.
  - cbn [splitlines_from]. rewrite e0. exact IHl.
Qed.

Lemma has_linebreak_app a b :
  has_linebreak (a ++ b) = has_linebreak a || has_linebreak b.
Proof.
  induction a as [|c a IH]; simpl; [reflexivity|].
  now rewrite IH, orb_assoc.
Qed.

Lemma splitlines_from_clean s cur :
  has_linebreak cur = false ->
  Forall (fun l => has_linebreak l = false) (splitlines_from s cur).
Proof.
  functional induction (splitlines_from s cur); intros H; auto.
  apply IHl. rewrite has_linebreak_app, H. simpl. now rewrite e0.
Qed.

Lemma strip_clean l :
  has_linebreak l = false -> has_linebreak (strip l) = false.
Proof.
  destruct (strip_split l) as (ws1 & ws2 & _ & _ & E).
  intros H. rewrite E, !has_linebreak_app in H.
  apply orb_false_iff in H as [_ H].
  now apply orb_false_iff in H as [H _].
Qed.

Lemma splitlines_join lines :
  Forall (fun l => has_linebreak l = false) lines ->
  splitlines (join_lines lines) = lines.
Proof.
  unfold splitlines. induction 1 as [|l ls Hl _ IH]; [reflexivity|].
  simpl join_lines. unfold terminated. rewrite append_snoc.
  rewrite splitlines_from_run by assumption.
  rewrite splitlines_from_LF, IH. reflexivity.
Qed.

Lemma drain_strip lines : forall s,
  drain s (map strip lines) = drain s lines.
Proof.
  induction lines as [|l ls IH]; intros s; [reflexivity|].
  simpl map. unfold drain in *. simpl fold_left.
  now rewrite apply_strip, IH.
Qed.

(** X2 — every line the receiver puts on the queue is free of line-break
    characters and of surrounding whitespace; and a newline cuts the text:
    what follows it is framed as if it had been received on its own, so
    chunks that end at a newline give the same queue received together or
    one after the other. *)
Theorem put_lines_framing (a b : string) :
  Forall (fun l => has_linebreak l = false /\ strip l = l) (put_lines a)
  /\ put_lines (a ++ String LF b)
     = put_lines (a ++ String LF "") ++ put_lines b.
Proof.
  unfold put_lines, splitlines. split.
  - pose proof (splitlines_from_clean a "" eq_refl) as H.
    induction H as [|l ls Hl _ IH]; simpl; constructor; [| exact IH].
    split; [now apply strip_clean | apply strip_idem].
  - now rewrite splitlines_from_cut, map_app.
Qed.

(** X3 — a datagram that carries lines, each ended by a newline and holding
    no other line break, is queued as those lines stripped, in order; and
    draining that queue takes the state where applying the lines as they
    were written takes it. *)
Theorem put_lines_join (s : State) (lines : list string) :
  Forall (fun l => has_linebreak l = false) lines ->
  put_lines (join_lines lines) = map strip lines
  /\ drain s (put_lines (join_lines lines)) = drain s lines.
Proof.
  intros H. unfold put_lines. rewrite (splitlines_join lines H).
  split; [reflexivity | apply drain_strip].
Qed.

Lemma put_lines_join_witness :
  put_lines (join_lines ["CL"; " TM, 2:03.7 "; ""; "SR,1,Riley,4:23.6"])
  = ["CL"; "TM, 2:03.7"; ""; "SR,1,Riley,4:23.6"]
  /\ clock (drain busy
              (put_lines
                 (join_lines ["CL"; " TM, 2:03.7 "; ""; "SR,1,Riley,4:23.6"])))
     = "2:03.7".
Proof.
  assert (H : Forall (fun l => has_linebreak l = false)
                ["CL"; " TM, 2:03.7 "; ""; "SR,1,Riley,4:23.6"])
    by (repeat (constructor; [reflexivity|]); constructor).
  destruct (put_lines_join busy _ H) as [H1 H2].
  split; [rewrite H1; reflexivity | rewrite H2; reflexivity].
Defined.

(** * Further properties of the reducer and the main loop *)

Lemma apply_message_same s1 s2 line :
  same_display s1 s2 ->
  same_display (apply_message s1 line) (apply_message s2 line).
Proof.
  intros (He & Hh & Hc & Hm & Hr & Hn).
  unfold apply_message.
  destruct (String.eqb line ""); [repeat split; assumption|].
  destruct (parse_csv_line line) as [|p0 ps]; [repeat split; assumption|].
  cbv zeta. unfold item_or. simpl nth.
  repeat match goal with
  | |- context [if ?c then _ else _] => destruct c
  end;
  unfold same_display; simpl; rewrite ?He, ?Hh, ?Hc, ?Hm, ?Hr, ?Hn;
  repeat split; try assumption; destruct ps; simpl; auto.
Qed.

Lemma drain_same lines : forall s1 s2,
  same_display s1 s2 -> same_display (drain s1 lines) (drain s2 lines).
Proof.
  induction lines as [|l ls IH]; intros s1 s2 H; [exact H|].
  apply IH. now apply apply_message_same.
Qed.

Lemma same_display_trans s1 s2 s3 :
  same_display s1 s2 -> same_display s2 s3 -> same_display s1 s3.
Proof. unfold same_display. intuition congruence. Qed.

Lemma rotate_same r now l : same_display (st (rotate r now l)) (st l).
Proof.
  unfold rotate, same_display.
  destruct (in_results (st l)); [destruct (next_rotate l <=? now)%Z |];
    simpl; repeat split.
Qed.

Lemma drain_app s a b : drain s (a ++ b) = drain (drain s a) b.
Proof. unfold drain. apply fold_left_app. Qed.

Lemma run_same r its : forall l s,
  same_display (st l) s ->
  same_display (st (run r l its)) (drain s (queued its)).
Proof.
  induction its as [|[lines now] its IH]; intros l s H; [exact H|].
  unfold queued. simpl List.concat. rewrite drain_app.
  apply IH. unfold iteration. simpl fst. simpl snd.
  eapply same_display_trans; [apply rotate_same|].
  simpl st. now apply drain_same.
Qed.

Lemma same_display_refl s : same_display s s.
Proof. repeat split. Qed.

Lemma same_display_sym s1 s2 : same_display s1 s2 -> same_display s2 s1.
Proof. unfold same_display. intuition congruence. Qed.

(** X4 — event, heat, clock, mode and both result lists depend on the queued
    lines and their order alone: after any iterations of the main loop they
    are what draining all the lines at once gives, so neither the way the
    lines fall into iterations, nor the clock readings, nor the rotation
    interval changes them.  Only the rotation index is the loop's own. *)
Theorem display_depends_on_queue_only (r r' : Z) (l : Loop)
  (its its' : list (list string * Z)) :
  same_display (st (run r l its)) (drain (st l) (queued its))
  /\ (queued its = queued its' ->
      same_display (st (run r l its)) (st (run r' l its'))).
Proof.
  split; [apply run_same, same_display_refl|].
  intros H. eapply same_display_trans; [apply run_same, same_display_refl|].
  rewrite H. apply same_display_sym, run_same, same_display_refl.
Qed.

Lemma display_depends_on_queue_only_witness :
  same_display
    (st (run 2 (Loop_init 2 0)
           [(["SR,1,Riley,4:23.6"], 1%Z); ([], 5%Z); (["SR,2,Chen,4:24.1"], 9%Z)]))
    (st (run 7 (Loop_init 2 0)
           [(["SR,1,Riley,4:23.6"; "SR,2,Chen,4:24.1"], 3%Z)])).
Proof.
  apply (display_depends_on_queue_only 2 7 (Loop_init 2 0)
           [(["SR,1,Riley,4:23.6"], 1%Z); ([], 5%Z); (["SR,2,Chen,4:24.1"], 9%Z)]
           [(["SR,1,Riley,4:23.6"; "SR,2,Chen,4:24.1"], 3%Z)]).
  reflexivity.
Defined.

(** ** The rotation timer *)

Lemma next_rotate_iteration r l it :
  next_rotate (iteration r l it)
  = if resets l it then (snd it + r)%Z else next_rotate l.
Proof.
  unfold iteration, rotate, resets, fires, rotates. simpl st. simpl next_rotate.
  destruct (in_results (drain (st l) (fst it)));
    [destruct (next_rotate l <=? snd it)%Z |]; reflexivity.
Qed.

Lemma next_rotate_run r b pre : forall l,
  (b <= next_rotate l)%Z ->
  Forall (fun i => (b <= snd i + r)%Z) pre ->
  (b <= next_rotate (run r l pre))%Z.
Proof.
  induction pre as [|i pre IH]; intros l Hl Hpre; [exact Hl|].
  apply Forall_cons_iff in Hpre as [Hi Hpre].
  apply IH; [| exact Hpre].
  rewrite next_rotate_iteration. now destruct (resets l i).
Qed.

Lemma fires_elapsed l it : fires l it = true -> (next_rotate l <= snd it)%Z.
Proof.
  unfold fires, rotates. simpl. intros H.
  apply andb_true_iff in H as [_ H]. now apply Z.leb_le.
Qed.

(** X5 — no rotation comes early.  Once an iteration at reading [t] has set
    the timer anew (it rotated, or it found the mode not [RESULTS] or the
    results empty), no later iteration rotates before [t + rotate_sec], as
    long as the clock does not read less than [t] in between; the same holds
    from the loop's start at [t0].  So results that reappear are shown for
    a full interval before the first rotation. *)
Theorem rotation_not_early (r t0 : Z) (l0 : Loop) (it1 it : list string * Z)
  (pre : list (list string * Z)) :
  (Forall (fun i => (snd it1 <= snd i)%Z) pre ->
   resets l0 it1 = true ->
   fires (run r (iteration r l0 it1) pre) it = true ->
   (snd it1 + r <= snd it)%Z)
  /\ (Forall (fun i => (t0 <= snd i)%Z) pre ->
      fires (run r (Loop_init r t0) pre) it = true -> (t0 + r <= snd it)%Z).
Proof.
  split.
  - intros H1 Hres Hfire. apply fires_elapsed in Hfire.
    eapply Z.le_trans; [| exact Hfire].
    apply next_rotate_run.
    + rewrite next_rotate_iteration, Hres. apply Z.le_refl.
    + eapply Forall_impl; [| exact H1]. simpl. intros i Hi. lia.
  - intros H0 Hfire. apply fires_elapsed in Hfire.
    eapply Z.le_trans; [| exact Hfire].
    apply next_rotate_run; [apply Z.le_refl|].
    eapply Forall_impl; [| exact H0]. simpl. intros i Hi. lia.
Qed.

Lemma rotation_not_early_witness :
  fires (run 2 (iteration 2 (Loop_init 2 0) (["TM,1:00"], 10%Z))
           [(["SR,1,Riley,4:23.6"], 10%Z); ([], 11%Z)])
        ([], 12%Z) = true
  /\ (10 + 2 <= 12)%Z
  /\ fires (run 2 (Loop_init 2 0) [(["SR,1,Riley,4:23.6"], 1%Z)]) ([], 3%Z)
     = true
  /\ (0 + 2 <= 3)%Z.
Proof.
  destruct (rotation_not_early 2 0 (Loop_init 2 0) (["TM,1:00"], 10%Z)
              ([], 12%Z) [(["SR,1,Riley,4:23.6"], 10%Z); ([], 11%Z)])
    as [H1 _].
  destruct (rotation_not_early 2 0 (Loop_init 2 0) ([], 0%Z)
              ([], 3%Z) [(["SR,1,Riley,4:23.6"], 1%Z)])
    as [_ H2].
  split; [reflexivity|].
  split; [apply H1; [repeat (constructor; [simpl; lia|]); constructor
                    | reflexivity | reflexivity] |].
  split; [reflexivity|].
  apply H2; [repeat (constructor; [simpl; lia|]); constructor | reflexivity].
Defined.

(** ** What the lists and the index are left with *)

(** X6 — the window holds over the whole run: after any iterations of the
    main loop from its initial state, whatever the lines and the clock
    readings, [results] holds at most 16 pairs, [results_names] as many
    names, and both are the projections of the entries the queued lines
    leave, oldest first. *)
Theorem reachable_results_bounded (r t0 : Z) (its : list (list string * Z)) :
  let s := st (run r (Loop_init r t0) its) in
  List.length (results s) <= 16
  /\ List.length (results_names s) = List.length (results s)
  /\ results s = map pair_of (spec_results (queued its))
  /\ results_names s = map name (spec_results (queued its)).
Proof.
  intros s. subst s.
  destruct (run_holds r its [] (Loop_init r t0) (conj eq_refl eq_refl))
    as [[Hr Hn] Hlen]; [simpl; lia|].
  fold (spec_results (queued its)) in Hr, Hn, Hlen.
  rewrite Hr, Hn, !length_map. auto.
Qed.

Lemma apply_keeps_index s line :
  tag_of line <> "CL" -> tag_of line <> "SRMODE" ->
  result_index (apply_message s line) = result_index s.
Proof.
  unfold apply_message, tag_of. intros HCL HSM.
  destruct (String.eqb line ""); [auto|].
  destruct (parse_csv_line line) as [|p0 ps]; [auto|].
  simpl hd in *. cbv zeta.
  destruct (String.eqb_spec (upper p0) "CL"); [contradiction|].
  destruct (String.eqb (upper p0) "RH"); [auto|].
  destruct (String.eqb (upper p0) "TM"); [auto|].
  destruct (String.eqb_spec (upper p0) "SRMODE"); [contradiction|].
  destruct (String.eqb (upper p0) "SR"); [auto|].
  destruct (String.eqb (upper p0) "TX"); auto.
Qed.

(** X7 — only [CL] and [SR] lines change the stored results: any run of
    other lines (headers, clock updates, free text, [SRMODE], unknown tags)
    leaves both lists as they were; and when no [SRMODE] line is among them
    either, the rotation index is left as it was too. *)
Theorem results_survive_other_lines (s : State) (lines : list string) :
  Forall (fun l => tag_of l <> "CL" /\ tag_of l <> "SR") lines ->
  results (drain s lines) = results s
  /\ results_names (drain s lines) = results_names s
  /\ (Forall (fun l => tag_of l <> "SRMODE") lines ->
      result_index (drain s lines) = result_index s).
Proof.
  revert s. induction lines as [|l ls IH]; intros s H; [auto|].
  apply Forall_cons_iff in H as [[HCL HSR] Hls].
  destruct (apply_keeps_lists s l HCL HSR) as [Hr Hn].
  destruct (IH (apply_message s l) Hls) as (Hr' & Hn' & Hi').
  change (drain s (l :: ls)) with (drain (apply_message s l) ls).
  split; [congruence|]. split; [congruence|].
  intros HSM. apply Forall_cons_iff in HSM as [Hl HSM].
  rewrite (Hi' HSM). now apply apply_keeps_index.
Qed.

Lemma results_survive_other_lines_witness :
  results (drain busy ["RH,Girls 800m,,,Heat 2"; "TM,0:31.2"; "TX,Next up";
                       "SRMODE,END"; "LAP,3"])
  = results busy
  /\ result_index (drain busy ["RH,Girls 800m,,,Heat 2"; "TM,0:31.2"; "??"])
     = result_index busy.
Proof.
  destruct (results_survive_other_lines busy
              ["RH,Girls 800m,,,Heat 2"; "TM,0:31.2"; "TX,Next up";
               "SRMODE,END"; "LAP,3"]) as (H1 & _).
  { repeat (constructor; [split; discriminate|]); constructor. }
  destruct (results_survive_other_lines busy
              ["RH,Girls 800m,,,Heat 2"; "TM,0:31.2"; "??"]) as (_ & _ & H3).
  { repeat (constructor; [split; discriminate|]); constructor. }
  split; [exact H1|].
  apply H3. repeat (constructor; [discriminate|]); constructor.
Defined.

(** X8 — [SRMODE] acts on its argument only: with [BEGIN] (in any letter
    case) it sets the mode to [RESULTS] and the rotation index to 0, keeping
    every other field, so the first entry is the one shown next; with no
    argument, or one that is neither [BEGIN] nor [END], the line changes
    nothing. *)
Theorem srmode_begin_or_nothing (s : State) (line : string) :
  tag_of line = "SRMODE" ->
  (upper (arg 1 "" line) = "BEGIN" ->
   apply_message s line
   = {| event := event s; heat := heat s; clock := clock s;
        mode := RESULTS;
        results := results s; results_names := results_names s;
        result_index := 0 |}
   /\ (results s <> [] -> shown_index (apply_message s line) = Some 0))
  /\ (upper (arg 1 "" line) <> "BEGIN" -> upper (arg 1 "" line) <> "END" ->
      apply_message s line = s).
Proof.
  intros H. split.
  - intros HB.
    assert (E : apply_message s line
                = {| event := event s; heat := heat s; clock := clock s;
                     mode := RESULTS;
                     results := results s; results_names := results_names s;
                     result_index := 0 |}).
    { dispatch H. cbv beta iota zeta.
      change (String.eqb "SRMODE" "CL") with false.
      change (String.eqb "SRMODE" "RH") with false.
      change (String.eqb "SRMODE" "TM") with false.
      change (String.eqb "SRMODE" "SRMODE") with true.
      cbv iota. rewrite HB.
      change (String.eqb "BEGIN" "BEGIN") with true.
      rewrite andb_true_r.
      destruct ps as [|p1 ps]; [discriminate HB | reflexivity]. }
    split; [exact E|]. intros Hne. rewrite E.
    rewrite shown_index_eq by exact Hne. simpl.
    f_equal. apply Nat.Div0.mod_0_l.
  - intros HB HE. dispatch H. cbv beta iota zeta.
    change (String.eqb "SRMODE" "CL") with false.
    change (String.eqb "SRMODE" "RH") with false.
    change (String.eqb "SRMODE" "TM") with false.
    change (String.eqb "SRMODE" "SRMODE") with true.
    cbv iota.
    apply String.eqb_neq in HB, HE. rewrite HB, HE.
    now rewrite !andb_false_r.
Qed.

Lemma srmode_begin_or_nothing_witness :
  shown_index (apply_message busy "srmode,Begin") = Some 0
  /\ apply_message busy "SRMODE" = busy
  /\ apply_message busy "SRMODE,PAUSE" = busy.
Proof.
  split; [| split].
  - apply (proj1 (srmode_begin_or_nothing busy "srmode,Begin" eq_refl) eq_refl).
    discriminate.
  - apply (proj2 (srmode_begin_or_nothing busy "SRMODE" eq_refl)); discriminate.
  - apply (proj2 (srmode_begin_or_nothing busy "SRMODE,PAUSE" eq_refl));
      discriminate.
Defined.

(** * The renderer, as drawn *)

Section PanelFacts.

Variables width height : Z.
Variable advance : Panel.Font -> string -> Z.

Lemma center_text_empty canvas font y :
  Panel._center_text width advance canvas font "" y = (canvas, 0%Z).
Proof. reflexivity. Qed.

Lemma center_text_fits canvas font text y :
  text <> "" -> (advance font text < width)%Z ->
  Panel._center_text width advance canvas font text y
  = ([Panel.Text font ((width - advance font text) / 2) y Panel.white text],
     advance font text).
Proof.
  intros Ht Hw. unfold Panel._center_text.
  apply String.eqb_neq in Ht. rewrite Ht. simpl.
  apply Z.ltb_lt in Hw. now rewrite Hw.
Qed.

Lemma center_text_wide canvas font text y :
  text <> "" -> (width <= advance font text)%Z ->
  Panel._center_text width advance canvas font text y
  = (canvas ++ [Panel.Text font 0 y Panel.white text], advance font text).
Proof.
  intros Ht Hw. unfold Panel._center_text.
  apply String.eqb_neq in Ht. rewrite Ht. simpl.
  apply Z.ltb_ge in Hw. now rewrite Hw.
Qed.

(** X9 — [_center_text] draws nothing and returns 0 for an empty text.  A
    text narrower than the panel ends up alone on the canvas, whatever was
    drawn on it before, at a left margin that is not negative and at most
    one pixel less than the right margin; the width is returned.  A text as
    wide as the panel or wider is added at the left edge, after what was
    drawn before. *)
Theorem center_text_placement (canvas : Panel.Canvas) (font : Panel.Font)
  (text : string) (y : Z) :
  (text = "" ->
   Panel._center_text width advance canvas font text y = (canvas, 0%Z))
  /\ (text <> "" -> (advance font text < width)%Z ->
      let x := ((width - advance font text) / 2)%Z in
      Panel._center_text width advance canvas font text y
      = ([Panel.Text font x y Panel.white text], advance font text)
      /\ (0 <= x)%Z
      /\ (x + advance font text <= width)%Z
      /\ (0 <= (width - (x + advance font text)) - x <= 1)%Z)
  /\ (text <> "" -> (width <= advance font text)%Z ->
      Panel._center_text width advance canvas font text y
      = (canvas ++ [Panel.Text font 0 y Panel.white text], advance font text)).
Proof.
  split; [intros ->; apply center_text_empty|].
  split; [| apply center_text_wide].
  intros Ht Hw x. subst x.
  split; [now apply center_text_fits|].
  pose proof (Z.div_mod (width - advance font text) 2 ltac:(lia)) as Hd.
  pose proof (Z.mod_pos_bound (width - advance font text) 2 ltac:(lia)) as Hm.
  lia.
Qed.

(** X10 — what the header frame holds.  A clock text that is not empty and
    narrower than the panel is alone on the frame, centred on line 46: the
    event title and the heat drawn before it are gone with the canvas it
    clears.  With an empty clock text the frame holds the title as
    [_center_text] leaves it and, after it, the heat at (2, height - 2) when
    there is one; a clock text too wide for the panel is added to those at
    the left edge.  The header frame is also what [render] gives in
    [HEADER] mode and in [RESULTS] mode without results. *)
Theorem header_frame (s : State) :
  let before_clock :=
    fst (Panel._center_text width advance [] Panel.font_title (event s) 18)
    ++ (if String.eqb (heat s) "" then []
        else [Panel.Text Panel.font_small 2 (height - 2) Panel.white (heat s)]) in
  (clock s <> "" -> (advance Panel.font_clock (clock s) < width)%Z ->
   Panel.render_header width height advance s
   = [Panel.Text Panel.font_clock
        ((width - advance Panel.font_clock (clock s)) / 2) 46
        Panel.white (clock s)])
  /\ (clock s = "" ->
      Panel.render_header width height advance s = before_clock)
  /\ (clock s <> "" -> (width <= advance Panel.font_clock (clock s))%Z ->
      Panel.render_header width height advance s
      = before_clock
        ++ [Panel.Text Panel.font_clock 0 46 Panel.white (clock s)])
  /\ (mode s = HEADER \/ results s = [] ->
      Panel.render width height advance s
      = Some (Panel.render_header width height advance s)).
Proof.
  intros before_clock. subst before_clock.
  unfold Panel.render_header, Panel.CreateFrameCanvas, Panel.DrawText.
  cbv zeta.
  split; [| split; [| split]].
  - intros Hc Hw. now rewrite (center_text_fits _ _ _ _ Hc Hw).
  - intros ->. rewrite center_text_empty.
    destruct (String.eqb (heat s) ""); simpl; now rewrite ?app_nil_r.
  - intros Hc Hw. rewrite (center_text_wide _ _ _ _ Hc Hw).
    destruct (String.eqb (heat s) ""); simpl; now rewrite ?app_nil_r.
  - intros H. unfold Panel.render, Panel.render_results.
    destruct H as [-> | ->]; [reflexivity|]. now destruct (mode s).
Qed.

(** What [render_results] leaves on the frame for one entry. *)
Lemma results_frame_entry (s : State) (place mark last : string) :
  nth_error (results s) (result_index s mod List.length (results s))
  = Some (place, mark) ->
  nth_error (results_names s) (result_index s mod List.length (results s))
  = Some last ->
  Panel.render_results width height advance s
  = Some (fst (Panel._center_text width advance
                 (Panel.DrawLine
                    (fst (Panel._center_text width advance []
                            Panel.font_title (place ++ " - " ++ last) 20))
                    0 28 (width - 1) 28 Panel.green)
                 Panel.font_clock mark 58)).
Proof.
  intros Hr Hn. unfold Panel.render_results.
  destruct (results s) as [|r0 rs] eqn:E.
  { rewrite nth_error_nil in Hr. discriminate. }
  rewrite Hr, Hn. reflexivity.
Qed.

End PanelFacts.

Lemma center_text_placement_witness :
  Panel._center_text 128 advance_fixed
    [Panel.Line 0 28 127 28 Panel.green] Panel.font_clock "2:03.7" 46
  = ([Panel.Text Panel.font_clock 16 46 Panel.white "2:03.7"], 96%Z)
  /\ Panel._center_text 128 advance_fixed [] Panel.font_title "" 18 = ([], 0%Z)
  /\ Panel._center_text 128 advance_fixed [] Panel.font_title
       "Boys 1600m Final" 18
     = ([Panel.Text Panel.font_title 0 18 Panel.white "Boys 1600m Final"],
        160%Z).
Proof.
  destruct (center_text_placement 128 advance_fixed
              [Panel.Line 0 28 127 28 Panel.green] Panel.font_clock "2:03.7" 46)
    as (_ & H2 & _).
  destruct (center_text_placement 128 advance_fixed [] Panel.font_title "" 18)
    as (H1 & _).
  destruct (center_text_placement 128 advance_fixed [] Panel.font_title
              "Boys 1600m Final" 18) as (_ & _ & H3).
  split; [| split].
  - apply H2; [discriminate | reflexivity].
  - apply H1. reflexivity.
  - apply H3; [discriminate|]. vm_compute. discriminate.
Defined.

Lemma header_frame_witness :
  Panel.render_header 128 64 advance_fixed busy
  = [Panel.Text Panel.font_clock 16 46 Panel.white "2:03.7"]
  /\ Panel.render 128 64 advance_fixed (with_mode HEADER busy)
     = Some (Panel.render_header 128 64 advance_fixed (with_mode HEADER busy)).
Proof.
  destruct (header_frame 128 64 advance_fixed busy) as (H1 & _).
  destruct (header_frame 128 64 advance_fixed (with_mode HEADER busy))
    as (_ & _ & _ & H4).
  split; [apply H1; [discriminate | reflexivity] |].
  apply H4. left. reflexivity.
Defined.

Lemma queued_idle nows : queued (idle nows) = [].
Proof. induction nows as [|n ns IH]; [reflexivity | exact IH]. Qed.

Lemma panel_render_same w h adv s1 s2 :
  same_display s1 s2 ->
  result_index s1 mod List.length (results s2)
  = result_index s2 mod List.length (results s2) ->
  Panel.render w h adv s1 = Panel.render w h adv s2.
Proof.
  destruct s1 as [e1 h1 c1 m1 r1 n1 i1], s2 as [e2 h2 c2 m2 r2 n2 i2].
  unfold same_display. simpl.
  intros (-> & -> & -> & -> & -> & ->) Hi.
  unfold Panel.render, Panel.render_results, Panel.render_header. simpl.
  now rewrite Hi.
Qed.

(** X11 — what the panel shows in [RESULTS] mode.  After any iterations of
    the main loop from its initial state, with the mode [RESULTS] and entries
    on the board, [render] succeeds and the frame is that of the entry at
    position (rotation index mod number of entries): a mark that is not
    empty and narrower than the panel is alone on the frame, centred on line
    58, the "place - name" line and the green bar drawn before it being
    gone with the canvas it clears; with an empty mark the frame holds that
    line and the bar; a mark too wide for the panel is added to them at the
    left edge. *)
Theorem results_frame (width height : Z) (advance : Panel.Font -> string -> Z)
  (r t0 : Z) (its : list (list string * Z)) :
  let s := st (run r (Loop_init r t0) its) in
  let ents := spec_results (queued its) in
  mode s = RESULTS -> ents <> [] ->
  exists e,
    nth_error ents (result_index s mod List.length ents) = Some e
    /\ let top :=
         fst (Panel._center_text width advance [] Panel.font_title
                (place e ++ " - " ++ name e) 20)
         ++ [Panel.Line 0 28 (width - 1) 28 Panel.green] in
       (mark e <> "" -> (advance Panel.font_clock (mark e) < width)%Z ->
        Panel.render width height advance s
        = Some [Panel.Text Panel.font_clock
                  ((width - advance Panel.font_clock (mark e)) / 2) 58
                  Panel.white (mark e)])
       /\ (mark e = "" -> Panel.render width height advance s = Some top)
       /\ (mark e <> "" -> (width <= advance Panel.font_clock (mark e))%Z ->
           Panel.render width height advance s
           = Some (top ++ [Panel.Text Panel.font_clock 0 58 Panel.white (mark e)])).
Proof.
  intros s ents Hm Hne. subst s ents.
  destruct (run_holds r its [] (Loop_init r t0) (conj eq_refl eq_refl))
    as [[Hr Hn] _]; [simpl; lia|].
  fold (spec_results (queued its)) in Hr, Hn.
  set (s := st (run r (Loop_init r t0) its)) in *.
  set (ents := spec_results (queued its)) in *.
  assert (Hlen : List.length (results s) = List.length ents)
    by (rewrite Hr; apply length_map).
  assert (Hi : result_index s mod List.length ents < List.length ents).
  { apply Nat.mod_upper_bound. destruct ents; [congruence | discriminate]. }
  destruct (nth_error ents (result_index s mod List.length ents)) as [e|] eqn:E;
    [| apply nth_error_None in E; lia].
  exists e. split; [reflexivity|].
  assert (Hf : Panel.render width height advance s
               = Some (fst (Panel._center_text width advance
                              (Panel.DrawLine
                                 (fst (Panel._center_text width advance []
                                         Panel.font_title
                                         (place e ++ " - " ++ name e) 20))
                                 0 28 (width - 1) 28 Panel.green)
                              Panel.font_clock (mark e) 58))).
  { unfold Panel.render. rewrite Hm.
    apply results_frame_entry; rewrite Hlen.
    - rewrite Hr. change (place e, mark e) with (pair_of e).
      now apply map_nth_error.
    - rewrite Hn. now apply map_nth_error. }
  cbv zeta. rewrite Hf. unfold Panel.DrawLine.
  split; [| split].
  - intros Hk Hw. now rewrite center_text_fits.
  - intros ->. now rewrite center_text_empty.
  - intros Hk Hw. now rewrite center_text_wide.
Qed.

Lemma results_frame_witness :
  Panel.render 128 64 advance_fixed
    (st (run 2 (Loop_init 2 0)
           [(["SR,1,Riley,4:23.6"; "SR,2,Chen,4:24.1"], 1%Z); ([], 3%Z)]))
  = Some [Panel.Text Panel.font_clock 16 58 Panel.white "4:24.1"].
Proof.
  destruct (results_frame 128 64 advance_fixed 2 0
              [(["SR,1,Riley,4:23.6"; "SR,2,Chen,4:24.1"], 1%Z); ([], 3%Z)]
              eq_refl) as (e & He & H1 & _).
  { discriminate. }
  vm_compute in He. injection He as <-.
  apply H1; [discriminate | reflexivity].
Defined.

(** X12 — the rotation comes round: while no line arrives, after a number
    of rotation ticks that is a multiple of the number of results the panel
    shows the frame it showed before. *)
Theorem frame_period (width height : Z) (advance : Panel.Font -> string -> Z)
  (r : Z) (l : Loop) (nows : list Z) (k : nat) :
  rotation_ticks r l nows = k * List.length (results (st l)) ->
  Panel.render width height advance (st (run r l (idle nows)))
  = Panel.render width height advance (st l).
Proof.
  intros Hk. apply panel_render_same.
  - pose proof (run_same r (idle nows) l (st l) (same_display_refl _)) as H.
    now rewrite queued_idle in H.
  - destruct (run_idle r nows l) as (_ & _ & Hi).
    rewrite Hi, Hk. apply Nat.Div0.mod_add.
Qed.

Lemma frame_period_witness :
  Panel.render 128 64 advance_fixed
    (st (run 2 showing (idle [2%Z; 3%Z; 4%Z; 5%Z; 6%Z; 8%Z])))
  = Panel.render 128 64 advance_fixed (st showing).
Proof.
  apply (frame_period 128 64 advance_fixed 2 showing
           [2%Z; 3%Z; 4%Z; 5%Z; 6%Z; 8%Z] 2). reflexivity.
Defined.

(** * The timer modes *)

Lemma two_digits_checked :
  forallb (fun n =>
             String.eqb (TimerModes.format_02d (Z.of_nat n)) (two_digits n)
             && match TimerModes.int (two_digits n) with
                | Some v => Z.eqb v (Z.of_nat n)
                | None => false
                end
             && all_digits (two_digits n))
          (seq 0 100) = true.
Proof. vm_compute. reflexivity. Qed.

Lemma two_digits_spec n :
  n < 100 ->
  TimerModes.format_02d (Z.of_nat n) = two_digits n
  /\ TimerModes.int (two_digits n) = Some (Z.of_nat n)
  /\ all_digits (two_digits n) = true.
Proof.
  intros H. pose proof two_digits_checked as Hall.
  rewrite forallb_forall in Hall.
  specialize (Hall n ltac:(apply in_seq; lia)).
  apply andb_true_iff in Hall as [Hall Hd].
  apply andb_true_iff in Hall as [Hf Hi].
  apply String.eqb_eq in Hf.
  destruct (TimerModes.int (two_digits n)) as [v|]; [| discriminate].
  apply Z.eqb_eq in Hi. subst v. auto.
Qed.

Lemma fields_of_seconds h m s :
  (0 <= h)%Z -> (0 <= m < 60)%Z -> (0 <= s < 60)%Z ->
  let t := (h * 3600 + m * 60 + s)%Z in
  (t / 3600 = h /\ (t mod 3600) / 60 = m /\ t mod 60 = s)%Z.
Proof.
  intros Hh Hm Hs t. subst t.
  assert (E1 : ((h * 3600 + m * 60 + s) mod 3600 = m * 60 + s)%Z)
    by (symmetry; apply (Z.mod_unique_pos _ 3600 h); lia).
  split; [| split].
  - symmetry. apply (Z.div_unique_pos _ 3600 h (m * 60 + s)); lia.
  - rewrite E1. symmetry. apply (Z.div_unique_pos _ 60 m s); lia.
  - symmetry. apply (Z.mod_unique_pos _ 60 (h * 60 + m)); lia.
Qed.

Lemma fmt_hhmmss_range t :
  (0 <= t)%Z ->
  (t = (t / 3600) * 3600 + ((t mod 3600) / 60) * 60 + t mod 60)%Z
  /\ (0 <= t / 3600)%Z
  /\ (0 <= (t mod 3600) / 60 < 60)%Z
  /\ (0 <= t mod 60 < 60)%Z.
Proof.
  intros H.
  pose proof (Z.div_mod t 3600 ltac:(lia)).
  pose proof (Z.mod_pos_bound t 3600 ltac:(lia)).
  pose proof (Z.div_mod (t mod 3600) 60 ltac:(lia)).
  pose proof (Z.mod_pos_bound (t mod 3600) 60 ltac:(lia)).
  pose proof (Z.mod_pos_bound t 60 ltac:(lia)).
  pose proof (Z.div_pos t 3600 H ltac:(lia)).
  pose proof (Z.div_pos (t mod 3600) 60 ltac:(lia) ltac:(lia)).
  assert ((t mod 3600) mod 60 = t mod 60)%Z
    by (apply Z.mod_mod_divide; exists 60%Z; lia).
  assert ((t mod 3600) / 60 < 60)%Z by (apply Z.div_lt_upper_bound; lia).
  lia.
Qed.

(** X13 — [fmt_hhmmss] shows a negative time as zero, and a time [t >= 0]
    as the fields h, m, s with [t = 3600 h + 60 m + s], [m, s < 60]:
    conversely the time made of such fields is shown as those fields.  Below
    100 hours the text is the two digits of each field, colons between. *)
Theorem fmt_hhmmss_fields (t h m s : Z) :
  ((t < 0)%Z ->
   TimerModes.fmt_hhmmss t = TimerModes.fmt_hhmmss 0
   /\ TimerModes.fmt_hhmmss t = "00:00:00")
  /\ ((0 <= t)%Z ->
      TimerModes.fmt_hhmmss t
      = TimerModes.fmt_fields (t / 3600) ((t mod 3600) / 60) (t mod 60)
      /\ (t = (t / 3600) * 3600 + ((t mod 3600) / 60) * 60 + t mod 60)%Z
      /\ (0 <= t / 3600)%Z
      /\ (0 <= (t mod 3600) / 60 < 60)%Z /\ (0 <= t mod 60 < 60)%Z)
  /\ ((0 <= h)%Z -> (0 <= m < 60)%Z -> (0 <= s < 60)%Z ->
      TimerModes.fmt_hhmmss (h * 3600 + m * 60 + s)
      = TimerModes.fmt_fields h m s)
  /\ ((0 <= t < 360000)%Z ->
      TimerModes.fmt_hhmmss t
      = (two_digits (Z.to_nat (t / 3600)) ++ ":"
         ++ two_digits (Z.to_nat ((t mod 3600) / 60)) ++ ":"
         ++ two_digits (Z.to_nat (t mod 60)))%string).
Proof.
  assert (Hpos : (0 <= t)%Z ->
                 TimerModes.fmt_hhmmss t
                 = TimerModes.fmt_fields (t / 3600) ((t mod 3600) / 60)
                     (t mod 60)).
  { intros H. unfold TimerModes.fmt_hhmmss.
    apply Z.ltb_ge in H. now rewrite H. }
  pose proof (fmt_hhmmss_range t) as Hrange.
  split; [| split; [| split]].
  - intros H. unfold TimerModes.fmt_hhmmss.
    apply Z.ltb_lt in H. rewrite H. split; reflexivity.
  - intros H. split; [now apply Hpos | now apply Hrange].
  - intros Hh Hm Hs.
    destruct (fields_of_seconds h m s Hh Hm Hs) as (E1 & E2 & E3).
    unfold TimerModes.fmt_hhmmss.
    assert (Hge : (h * 3600 + m * 60 + s <? 0)%Z = false)
      by (apply Z.ltb_ge; lia).
    rewrite Hge. cbv zeta. now rewrite E1, E2, E3.
  - intros [H0 H1]. rewrite (Hpos H0).
    destruct (Hrange H0) as (_ & Hh & Hm & Hs).
    assert (Hh' : (t / 3600 < 100)%Z)
      by (apply Z.div_lt_upper_bound; lia).
    unfold TimerModes.fmt_fields.
    rewrite <- (Z2Nat.id (t / 3600)) at 1 by lia.
    rewrite <- (Z2Nat.id ((t mod 3600) / 60)) at 1 by lia.
    rewrite <- (Z2Nat.id (t mod 60)) at 1 by lia.
    rewrite (proj1 (two_digits_spec (Z.to_nat (t / 3600)) ltac:(lia))).
    rewrite (proj1 (two_digits_spec (Z.to_nat ((t mod 3600) / 60)) ltac:(lia))).
    rewrite (proj1 (two_digits_spec (Z.to_nat (t mod 60)) ltac:(lia))).
    reflexivity.
Qed.

Lemma fmt_hhmmss_fields_witness :
  TimerModes.fmt_hhmmss (-3) = "00:00:00"
  /\ TimerModes.fmt_hhmmss 3725 = "01:02:05"
  /\ TimerModes.fmt_hhmmss (12 * 3600 + 34 * 60 + 56)
     = TimerModes.fmt_fields 12 34 56.
Proof.
  destruct (fmt_hhmmss_fields (-3) 12 34 56) as (H1 & _ & H3 & _).
  destruct (fmt_hhmmss_fields 3725 0 0 0) as (_ & _ & _ & H4).
  split; [apply H1; lia|].
  split; [rewrite H4 by lia; reflexivity | apply H3; lia].
Defined.

(** ** Entering a time *)

Lemma digit_value c :
  Keys.isdigit c = true -> (0 <= Z.of_nat (nat_of_ascii c - 48) <= 9)%Z.
Proof.
  unfold Keys.isdigit. intros H. apply andb_true_iff in H as [H1 H2].
  apply Nat.leb_le in H1, H2. lia.
Qed.

Lemma isdigit_not_control c :
  Keys.isdigit c = true ->
  Ascii.eqb c Keys.DEL = false /\ Ascii.eqb c Keys.BS = false
  /\ Keys.is_enter c = false /\ Ascii.eqb c Keys.ESC = false.
Proof.
  intros H. unfold Keys.is_enter.
  repeat match goal with
  | |- context [Ascii.eqb c ?k] =>
      destruct (Ascii.eqb_spec c k) as [-> | _]; [discriminate H |]
  end.
  auto.
Qed.

(** A slice of at most two digits reads the same padded or not. *)
Lemma slice_value x :
  all_digits x = true -> (String.length x <= 2)%nat ->
  exists v, TimerModes.int_or_0 x = Some v
            /\ TimerModes.int_padded x = Some v
            /\ (x <> "" -> TimerModes.int x = Some v)
            /\ (0 <= v <= 99)%Z.
Proof.
  destruct x as [|c1 [|c2 [|c3 x]]]; simpl all_digits; simpl String.length;
    intros Hd Hl; try lia.
  - exists 0%Z. repeat split; try reflexivity; try lia. congruence.
  - apply andb_true_iff in Hd as [H1 _].
    pose proof (digit_value c1 H1).
    exists (Z.of_nat (nat_of_ascii c1 - 48)).
    unfold TimerModes.int_or_0, TimerModes.int_padded, TimerModes.rjust2,
      TimerModes.int, TimerModes.int_digits.
    rewrite H1. change (Keys.isdigit "0") with true. cbv iota.
    repeat split; try (f_equal; lia); lia.
  - apply andb_true_iff in Hd as [H1 Hd].
    apply andb_true_iff in Hd as [H2 _].
    pose proof (digit_value c1 H1). pose proof (digit_value c2 H2).
    exists (10 * Z.of_nat (nat_of_ascii c1 - 48)
            + Z.of_nat (nat_of_ascii c2 - 48))%Z.
    unfold TimerModes.int_or_0, TimerModes.int_padded, TimerModes.rjust2,
      TimerModes.int, TimerModes.int_digits.
    rewrite H1, H2.
    repeat split; try (f_equal; lia); lia.
Qed.

Lemma all_digits_substring d : forall n m,
  all_digits d = true -> all_digits (substring n m d) = true.
Proof.
  induction d as [|c d IH]; intros n m H.
  - destruct n, m; reflexivity.
  - simpl in H. apply andb_true_iff in H as [Hc Hd].
    destruct n as [|n]; [destruct m as [|m] |]; simpl; auto.
    rewrite Hc. now apply IH.
Qed.

Lemma length_substring_le d : forall n m,
  (String.length (substring n m d) <= m)%nat
  \/ substring n m d = EmptyString.
Proof.
  induction d as [|c d IH]; intros n m.
  - right. destruct n, m; reflexivity.
  - destruct n as [|n]; [destruct m as [|m] |]; simpl.
    + left. lia.
    + destruct (IH 0 m) as [H | H]; left; [lia | rewrite H; simpl; lia].
    + apply IH.
Qed.

Lemma substring_some d : forall n m,
  (n < String.length d)%nat -> substring n (S m) d <> EmptyString.
Proof.
  induction d as [|c d IH]; intros n m H; simpl in H; [lia|].
  destruct n as [|n]; simpl; [discriminate|]. apply IH. lia.
Qed.

Lemma slice2_value d n :
  all_digits d = true ->
  exists v, TimerModes.int_or_0 (substring n 2 d) = Some v
            /\ TimerModes.int_padded (substring n 2 d) = Some v
            /\ ((n < String.length d)%nat ->
                TimerModes.int (substring n 2 d) = Some v)
            /\ (0 <= v <= 99)%Z.
Proof.
  intros H.
  destruct (slice_value (substring n 2 d)) as (v & H1 & H2 & H3 & H4).
  - now apply all_digits_substring.
  - destruct (length_substring_le d n 2) as [Hl | ->]; [exact Hl | simpl; lia].
  - exists v. repeat split; try assumption; try lia.
    intros Hn. apply H3. now apply substring_some.
Qed.

(** The preview and the value [Enter] returns come from the same fields. *)
Lemma preview_and_enter d :
  all_digits d = true ->
  exists hh mm ss,
    TimerModes.preview d = Some (TimerModes.fmt_fields hh mm ss)
    /\ TimerModes.collect_step d (Some CR)
       = TimerModes.Returned (Some (hh * 3600 + mm * 60 + ss)%Z)
    /\ (0 <= hh <= 99)%Z /\ (0 <= mm <= 99)%Z /\ (0 <= ss <= 99)%Z.
Proof.
  intros H.
  destruct (slice2_value d 0 H) as (hh & Ah & Bh & Ch & Hh).
  destruct (slice2_value d 2 H) as (mm & Am & Bm & Cm & Hm).
  destruct (slice2_value d 4 H) as (ss & As & Bs & Cs & Hs).
  exists hh, mm, ss.
  assert (Hp : TimerModes.preview d = Some (TimerModes.fmt_fields hh mm ss)).
  { unfold TimerModes.preview.
    assert (Hfirst : (if (1 <=? String.length d)%nat
                      then if (2 <=? String.length d)%nat
                           then TimerModes.int_or_0 (substring 0 2 d)
                           else TimerModes.int (substring 0 1 d)
                      else Some 0%Z) <> None).
    { destruct (Nat.leb_spec 1 (String.length d)) as [L1 | _];
        [| discriminate].
      destruct (Nat.leb_spec 2 (String.length d)) as [L2 | L2];
        [rewrite Ah; discriminate |].
      destruct d as [|c1 [|c2 d']]; simpl in L1, L2; try lia.
      simpl in H. apply andb_true_iff in H as [H1 _].
      cbn [substring TimerModes.int TimerModes.int_digits].
      rewrite H1. discriminate. }
    destruct (if (1 <=? String.length d)%nat then _ else _); [| congruence].
    destruct (Nat.eqb_spec (String.length d) 6) as [E | _].
    - rewrite Ch, Cm, Cs by lia. reflexivity.
    - rewrite Ah, Am, As. reflexivity. }
  split; [exact Hp|]. split; [| auto].
  unfold TimerModes.collect_step. rewrite Hp.
  change (Keys.isdigit CR) with false.
  change (Ascii.eqb CR Keys.DEL) with false.
  change (Ascii.eqb CR Keys.BS) with false.
  change (Keys.is_enter CR) with true.
  cbn [andb orb]. now rewrite Bh, Bm, Bs.
Qed.



Lemma all_digits_app a b :
  all_digits (a ++ b) = all_digits a && all_digits b.
Proof.
  induction a as [|c a IH]; simpl; [reflexivity|].
  now rewrite IH, andb_assoc.
Qed.

Lemma string_length_app a b :
  String.length (a ++ b) = String.length a + String.length b.
Proof. induction a as [|c a IH]; simpl; [reflexivity | now rewrite IH]. Qed.


Lemma drop_last_digits d :
  all_digits d = true ->
  all_digits (TimerModes.drop_last d) = true
  /\ String.length (TimerModes.drop_last d) <= String.length d.
Proof.
  induction d as [|x d IH]; [auto|].
  simpl all_digits. intros H. apply andb_true_iff in H as [Hx Hd].
  destruct (IH Hd) as [IH1 IH2].
  destruct d as [|y d]; [simpl; auto|].
  change (TimerModes.drop_last (String x (String y d)))
    with (String x (TimerModes.drop_last (String y d))).
  simpl all_digits. simpl String.length. simpl String.length in IH2.
  rewrite Hx. simpl in IH1 |- *. split; [exact IH1 | lia].
Qed.

Lemma preview_some d :
  all_digits d = true -> exists p, TimerModes.preview d = Some p.
Proof.
  intros H. destruct (preview_and_enter d H) as (hh & mm & ss & Hp & _).
  eauto.
Qed.

Lemma collect_step_digit d c :
  all_digits d = true -> Keys.isdigit c = true ->
  TimerModes.collect_step d (Some c)
  = if (String.length d <? 6)%nat
    then TimerModes.Reading (d ++ String c "")
    else TimerModes.Reading d.
Proof.
  intros H Hc. destruct (preview_some d H) as [p Hp].
  destruct (isdigit_not_control c Hc) as (H1 & H2 & H3 & H4).
  unfold TimerModes.collect_step. rewrite Hp, Hc, H1, H2, H3, H4.
  now destruct (String.length d <? 6)%nat.
Qed.



Lemma collect_step_outcome d key :
  all_digits d = true -> String.length d <= 6 ->
  match TimerModes.collect_step d key with
  | TimerModes.Reading d' => all_digits d' = true /\ String.length d' <= 6
  | TimerModes.Returned (Some v) => (0 <= v <= 362439)%Z
  | TimerModes.Returned None => key = Some Keys.ESC
  | TimerModes.Raised => False
  end.
Proof.
  intros H Hl. destruct (preview_some d H) as [p Hp].
  destruct (slice2_value d 0 H) as (hh & _ & Bh & _ & Hh).
  destruct (slice2_value d 2 H) as (mm & _ & Bm & _ & Hm).
  destruct (slice2_value d 4 H) as (ss & _ & Bs & _ & Hs).
  unfold TimerModes.collect_step. rewrite Hp, Bh, Bm, Bs.
  destruct key as [c|]; [| auto].
  destruct (Keys.isdigit c && (String.length d <? 6)%nat) eqn:E1.
  { apply andb_true_iff in E1 as [Hc Hlt]. apply Nat.ltb_lt in Hlt.
    rewrite all_digits_app, H, string_length_app. simpl.
    rewrite Hc. split; [reflexivity | lia]. }
  destruct ((Ascii.eqb c Keys.DEL || Ascii.eqb c Keys.BS)
            && (0 <? String.length d)%nat).
  { destruct (drop_last_digits d H). split; [assumption | lia]. }
  destruct (Keys.is_enter c); [lia|].
  destruct (Ascii.eqb_spec c Keys.ESC) as [-> | _]; auto.
Qed.

(** X15 — over ASCII keys [collect_hhmmss] never raises.  While it reads,
    what is typed so far is at most six characters, all digits; the seconds
    it returns on [Enter] lie between 0 and 362439 (99 hours, 99 minutes, 99
    seconds: minutes and seconds above 59 are taken as typed); and it
    returns [None] only when ESC was pressed. *)
Theorem collect_hhmmss_outcome (keys : list (option ascii)) :
  forallb ascii_key keys = true ->
  match TimerModes.collect_hhmmss keys with
  | TimerModes.Reading d => all_digits d = true /\ String.length d <= 6
  | TimerModes.Returned (Some v) => (0 <= v <= 362439)%Z
  | TimerModes.Returned None => In (Some Keys.ESC) keys
  | TimerModes.Raised => False
  end.
Proof.
  intros _. unfold TimerModes.collect_hhmmss.
  assert (G : forall ks d,
             all_digits d = true -> String.length d <= 6 ->
             match TimerModes.collect_from d ks with
             | TimerModes.Reading d' =>
                 all_digits d' = true /\ String.length d' <= 6
             | TimerModes.Returned (Some v) => (0 <= v <= 362439)%Z
             | TimerModes.Returned None => In (Some Keys.ESC) ks
             | TimerModes.Raised => False
             end).
  { clear keys. intros ks.
    induction ks as [|key ks' IH]; intros d H Hl; [simpl; auto|].
    pose proof (collect_step_outcome d key H Hl) as Hs.
    cbn [TimerModes.collect_from].
    destruct (TimerModes.collect_step d key) as [d' | [v|] |].
    - destruct Hs as [H' Hl']. specialize (IH d' H' Hl').
      destruct (TimerModes.collect_from d' ks') as [? | [?|] |]; auto.
      now right.
    - exact Hs.
    - left. now symmetry.
    - exact Hs. }
  apply G; [reflexivity | simpl; lia].
Qed.

Lemma collect_hhmmss_outcome_witness :
  forallb ascii_key (typed "12x345678" ++ [None; Some Keys.BS; Some CR]) = true
  /\ match TimerModes.collect_hhmmss
             (typed "12x345678" ++ [None; Some Keys.BS; Some CR]) with
     | TimerModes.Returned (Some v) => (0 <= v <= 362439)%Z
     | _ => False
     end.
Proof.
  split; [reflexivity|].
  pose proof (collect_hhmmss_outcome
                (typed "12x345678" ++ [None; Some Keys.BS; Some CR]) eq_refl)
    as H.
  destruct (TimerModes.collect_hhmmss
              (typed "12x345678" ++ [None; Some Keys.BS; Some CR]))
    as [d | [v|] |] eqn:E; try discriminate E.
  exact H.
Defined.



Lemma collect_from_typed s : forall d rest,
  all_digits d = true -> all_digits s = true ->
  String.length d + String.length s <= 6 ->
  TimerModes.collect_from d (typed s ++ rest)
  = TimerModes.collect_from (d ++ s) rest.
Proof.
  induction s as [|c s IH]; intros d rest Hd Hs Hl.
  - now rewrite append_nil_r.
  - simpl in Hs. apply andb_true_iff in Hs as [Hc Hs].
    simpl in Hl. simpl typed. simpl app. cbn [TimerModes.collect_from].
    rewrite (collect_step_digit d c Hd Hc).
    assert (Hlt : (String.length d <? 6)%nat = true) by (apply Nat.ltb_lt; lia).
    rewrite Hlt, IH.
    + now rewrite append_snoc.
    + rewrite all_digits_app, Hd. simpl. now rewrite Hc.
    + exact Hs.
    + rewrite string_length_app. simpl. lia.
Qed.

(** X17 — typing a time gives it back: the six digits of hh, mm, ss (each
    below 100) followed by [Enter] make [collect_hhmmss] return
    [3600 hh + 60 mm + ss]; so typing the digits [fmt_hhmmss] shows for a
    time below 100 hours returns that time. *)
Theorem collect_round_trip (hh mm ss : nat) (t : Z) :
  (hh < 100 -> mm < 100 -> ss < 100 ->
   TimerModes.collect_hhmmss
     (typed (two_digits hh ++ two_digits mm ++ two_digits ss) ++ [Some CR])
   = TimerModes.Returned
       (Some (Z.of_nat hh * 3600 + Z.of_nat mm * 60 + Z.of_nat ss)%Z))
  /\ ((0 <= t < 360000)%Z ->
      let h := Z.to_nat (t / 3600) in
      let m := Z.to_nat ((t mod 3600) / 60) in
      let s := Z.to_nat (t mod 60) in
      TimerModes.fmt_hhmmss t
      = (two_digits h ++ ":" ++ two_digits m ++ ":" ++ two_digits s)%string
      /\ TimerModes.collect_hhmmss
           (typed (two_digits h ++ two_digits m ++ two_digits s) ++ [Some CR])
         = TimerModes.Returned (Some t)).
Proof.
  assert (G : forall hh mm ss, hh < 100 -> mm < 100 -> ss < 100 ->
    TimerModes.collect_hhmmss
      (typed (two_digits hh ++ two_digits mm ++ two_digits ss) ++ [Some CR])
    = TimerModes.Returned
        (Some (Z.of_nat hh * 3600 + Z.of_nat mm * 60 + Z.of_nat ss)%Z)).
  { clear. intros hh mm ss Hh Hm Hs.
    destruct (two_digits_spec hh Hh) as (_ & Ih & Dh).
    destruct (two_digits_spec mm Hm) as (_ & Im & Dm).
    destruct (two_digits_spec ss Hs) as (_ & Is & Ds).
    assert (Hall : all_digits (two_digits hh ++ two_digits mm ++ two_digits ss)
                   = true)
      by (now rewrite !all_digits_app, Dh, Dm, Ds).
    unfold TimerModes.collect_hhmmss.
    rewrite collect_from_typed; [| reflexivity | exact Hall | simpl; lia].
    cbn [append TimerModes.collect_from].
    destruct (preview_some _ Hall) as [p Hp].
    unfold TimerModes.collect_step. rewrite Hp.
    change (Keys.isdigit CR) with false.
    change (Ascii.eqb CR Keys.DEL) with false.
    change (Ascii.eqb CR Keys.BS) with false.
    change (Keys.is_enter CR) with true.
    cbn [andb orb].
    change (substring 0 2 (two_digits hh ++ two_digits mm ++ two_digits ss))
      with (two_digits hh).
    change (substring 2 2 (two_digits hh ++ two_digits mm ++ two_digits ss))
      with (two_digits mm).
    change (substring 4 2 (two_digits hh ++ two_digits mm ++ two_digits ss))
      with (two_digits ss).
    change (TimerModes.int_padded (two_digits hh))
      with (TimerModes.int (two_digits hh)).
    change (TimerModes.int_padded (two_digits mm))
      with (TimerModes.int (two_digits mm)).
    change (TimerModes.int_padded (two_digits ss))
      with (TimerModes.int (two_digits ss)).
    now rewrite Ih, Im, Is. }
  split; [apply G|].
  intros Ht h m s.
  destruct (fmt_hhmmss_range t) as (E & Hh & Hm & Hs); [lia|].
  destruct Ht as [H0 H1].
  assert (Hh' : (t / 3600 < 100)%Z) by (apply Z.div_lt_upper_bound; lia).
  split.
  - unfold TimerModes.fmt_hhmmss. apply Z.ltb_ge in H0. rewrite H0.
    cbv zeta. unfold TimerModes.fmt_fields. subst h m s.
    rewrite <- (Z2Nat.id (t / 3600)) at 1 by lia.
    rewrite <- (Z2Nat.id ((t mod 3600) / 60)) at 1 by lia.
    rewrite <- (Z2Nat.id (t mod 60)) at 1 by lia.
    rewrite (proj1 (two_digits_spec (Z.to_nat (t / 3600)) ltac:(lia))).
    rewrite (proj1 (two_digits_spec (Z.to_nat ((t mod 3600) / 60)) ltac:(lia))).
    rewrite (proj1 (two_digits_spec (Z.to_nat (t mod 60)) ltac:(lia))).
    reflexivity.
  - rewrite G by (subst h m s; lia). subst h m s.
    rewrite !Z2Nat.id by lia. do 2 f_equal. lia.
Qed.

Lemma collect_round_trip_witness :
  TimerModes.collect_hhmmss (typed "001530" ++ [Some CR])
  = TimerModes.Returned (Some 930%Z)
  /\ TimerModes.fmt_hhmmss 3725 = "01:02:05"
  /\ TimerModes.collect_hhmmss (typed "010205" ++ [Some CR])
     = TimerModes.Returned (Some 3725%Z).
Proof.
  destruct (collect_round_trip 0 15 30 3725) as [H1 H2].
  specialize (H1 ltac:(lia) ltac:(lia) ltac:(lia)).
  specialize (H2 ltac:(lia)). cbv zeta in H2. destruct H2 as [H2 H3].
  split; [exact H1|]. split; [exact H2 | exact H3].
Defined.

(** ** The running clock *)

Section ClockFacts.

Variable T : Type.
Variable ge_1 : T -> T -> bool.
Variable whole : T -> T -> Z.
Variable plus : T -> Z -> T.

(** A difference of at least one second has a whole part of at least 1. *)
Hypothesis whole_ge_1 :
  forall now last, ge_1 now last = true -> (1 <= whole now last)%Z.

Local Abbreviation loop := (RunClock.loop T ge_1 whole plus).
Local Abbreviation on_time := (RunClock.on_time T ge_1 whole plus).
Local Abbreviation on_key := (RunClock.on_key T).
Local Abbreviation cur := (RunClock.cur T).
Local Abbreviation running := (RunClock.running T).
Local Abbreviation last := (RunClock.last T).

Lemma on_time_bounds direction start now c :
  direction = RunClock.DIR_UP \/ direction = RunClock.DIR_DOWN ->
  (0 <= cur c)%Z ->
  (direction = RunClock.DIR_DOWN -> cur c <= RunClock.or_0 start)%Z ->
  (0 <= cur (on_time direction now c))%Z
  /\ (direction = RunClock.DIR_DOWN ->
      cur (on_time direction now c) <= RunClock.or_0 start)%Z.
Proof.
  intros Hd H0 Hs. unfold RunClock.on_time.
  destruct (running c && ge_1 now (last c)) eqn:E; [| auto].
  apply andb_true_iff in E as [_ E]. apply whole_ge_1 in E.
  destruct Hd as [-> | ->]; simpl.
  - split; [lia | discriminate].
  - specialize (Hs eq_refl).
    destruct (Z.leb_spec (cur c - whole now (last c)) 0); simpl;
      split; intros; lia.
Qed.

Lemma on_key_bounds direction start key c c' :
  direction = RunClock.DIR_UP \/ direction = RunClock.DIR_DOWN ->
  (0 <= RunClock.or_0 start)%Z ->
  (0 <= cur c)%Z ->
  (direction = RunClock.DIR_DOWN -> cur c <= RunClock.or_0 start)%Z ->
  on_key direction start key c = Some c' ->
  (0 <= cur c')%Z
  /\ (direction = RunClock.DIR_DOWN -> cur c' <= RunClock.or_0 start)%Z.
Proof.
  intros Hd Hst H0 Hs. unfold RunClock.on_key.
  destruct key as [k|]; [| intros [= <-]; auto].
  destruct (Keys.is_enter k); [intros [= <-]; auto|].
  destruct (_ || _); [intros [= <-]; auto|].
  destruct (_ || _).
  { intros [= <-]. simpl. destruct Hd as [-> | ->]; simpl; split; intros; lia. }
  destruct (Ascii.eqb k Keys.ESC); [| intros [= <-]; auto].
  destruct (running c); [intros [= <-]; auto | discriminate].
Qed.

(** X18 — the time the clock shows stays in range: counting up from a start
    that is not negative it is never negative; counting down it lies
    between 0 and the start, whatever keys are pressed and whenever; and a
    countdown tick that would pass zero leaves it at 0 and stops the
    clock. *)
Theorem clock_in_range (direction : Z) (start : option Z) (t0 now : T)
  (evs : list (option ascii * T)) (c0 c c' : RunClock.Clock T) :
  direction = RunClock.DIR_UP \/ direction = RunClock.DIR_DOWN ->
  (0 <= RunClock.or_0 start)%Z ->
  (RunClock.enter T direction start t0 = Some c0 ->
   loop direction start c0 evs = Some c' ->
   (0 <= cur c')%Z
   /\ (direction = RunClock.DIR_DOWN -> cur c' <= RunClock.or_0 start)%Z)
  /\ (running c = true -> ge_1 now (last c) = true ->
      (cur c <= whole now (last c))%Z ->
      cur (on_time RunClock.DIR_DOWN now c) = 0%Z
      /\ running (on_time RunClock.DIR_DOWN now c) = false).
Proof.
  intros Hd Hst. split.
  - intros He Hl.
    assert (H0 : (0 <= cur c0)%Z
                 /\ (direction = RunClock.DIR_DOWN ->
                     cur c0 <= RunClock.or_0 start)%Z).
    { unfold RunClock.enter in He. destruct start as [v|].
      - injection He as <-. simpl in *.
        destruct Hd as [-> | ->]; simpl; [| split; intros; lia].
        destruct (v =? 0)%Z; split; intros; try lia; discriminate.
      - destruct Hd as [-> | ->]; simpl in He; [| discriminate].
        injection He as <-. simpl. split; intros; [lia | discriminate]. }
    clear He. revert c0 H0 Hl.
    induction evs as [|[key t] evs' IH]; intros c0 [H0 Hs] Hl.
    + injection Hl as <-. auto.
    + cbn [RunClock.loop] in Hl. unfold RunClock.iteration in Hl.
      simpl fst in Hl. simpl snd in Hl.
      destruct (on_key direction start key c0) as [c1|] eqn:Ek;
        [| discriminate].
      destruct (on_key_bounds direction start key c0 c1 Hd Hst H0 Hs Ek)
        as [H1 Hs1].
      apply (IH _ (on_time_bounds direction start t c1 Hd H1 Hs1) Hl).
  - intros Hr Hg Hc. unfold RunClock.on_time. rewrite Hr, Hg. simpl.
    apply Z.sub_le_mono_r with (p := whole now (last c)) in Hc.
    rewrite Z.sub_diag in Hc. apply Z.leb_le in Hc. rewrite Hc. auto.
Qed.

Lemma loop_app direction start evs1 : forall c evs2,
  loop direction start c (evs1 ++ evs2)
  = match loop direction start c evs1 with
    | Some c' => loop direction start c' evs2
    | None => None
    end.
Proof.
  induction evs1 as [|ev evs1 IH]; intros c evs2; [reflexivity|].
  simpl app. cbn [RunClock.loop].
  destruct (RunClock.iteration T ge_1 whole plus direction start c ev);
    [apply IH | reflexivity].
Qed.

Lemma loop_idle_stopped direction start evs : forall c,
  no_keys evs -> running c = false ->
  loop direction start c evs = Some c.
Proof.
  induction evs as [|[key t] evs' IH]; intros c Hn Hr; [reflexivity|].
  apply Forall_cons_iff in Hn as [Hk Hn]. simpl in Hk. subst key.
  cbn [RunClock.loop]. unfold RunClock.iteration, RunClock.on_time. simpl.
  rewrite Hr. simpl. now apply IH.
Qed.

(** X19 — leaving the clock: ESC pressed while the clock runs stops it and
    keeps the time shown; ESC pressed while it stands returns to the menu.
    So two ESC with no key between them always return to the menu. *)
Theorem clock_escape (direction : Z) (start : option Z) (c : RunClock.Clock T)
  (t1 t2 : T) (idle : list (option ascii * T)) :
  (running c = true ->
   RunClock.iteration T ge_1 whole plus direction start c (Some Keys.ESC, t1)
   = Some {| RunClock.cur := cur c; RunClock.running := false;
             RunClock.last := last c |})
  /\ (running c = false ->
      RunClock.iteration T ge_1 whole plus direction start c (Some Keys.ESC, t1)
      = None)
  /\ (no_keys idle ->
      loop direction start c
        ((Some Keys.ESC, t1) :: idle ++ [(Some Keys.ESC, t2)]) = None).
Proof.
  assert (H1 : running c = true ->
               RunClock.iteration T ge_1 whole plus direction start c
                 (Some Keys.ESC, t1)
               = Some {| RunClock.cur := cur c; RunClock.running := false;
                         RunClock.last := last c |}).
  { intros Hr. unfold RunClock.iteration, RunClock.on_key, RunClock.on_time.
    simpl. now rewrite Hr. }
  assert (H2 : forall c t, running c = false ->
               RunClock.iteration T ge_1 whole plus direction start c
                 (Some Keys.ESC, t) = None).
  { intros c2 t Hr. unfold RunClock.iteration, RunClock.on_key.
    simpl. now rewrite Hr. }
  split; [exact H1|]. split; [apply H2|].
  intros Hn. cbn [RunClock.loop].
  destruct (running c) eqn:Hr; [| now rewrite H2].
  rewrite (H1 eq_refl), loop_app, loop_idle_stopped by auto.
  cbn [RunClock.loop]. now rewrite H2.
Qed.

(** X20 — a pause is not taken off the count.  While the clock stands,
    iterations without a key change nothing, [last] included; so when Enter
    starts it again at reading [now], the timing step runs against the
    [last] of before the pause: counting up, if a second or more has passed
    since then, all its whole seconds are added at once. *)
Theorem resume_counts_from_last (direction : Z) (start : option Z)
  (c : RunClock.Clock T) (now : T) (idle : list (option ascii * T)) :
  running c = false -> no_keys idle ->
  loop direction start c (idle ++ [(Some CR, now)])
  = Some (on_time direction now
            {| RunClock.cur := cur c; RunClock.running := true;
               RunClock.last := last c |})
  /\ (direction = RunClock.DIR_UP -> ge_1 now (last c) = true ->
      loop direction start c (idle ++ [(Some CR, now)])
      = Some {| RunClock.cur := (cur c + whole now (last c))%Z;
                RunClock.running := true;
                RunClock.last := plus (last c) (whole now (last c)) |}).
Proof.
  intros Hr Hn.
  assert (E : loop direction start c (idle ++ [(Some CR, now)])
              = Some (on_time direction now
                        {| RunClock.cur := cur c; RunClock.running := true;
                           RunClock.last := last c |})).
  { rewrite loop_app, loop_idle_stopped by auto.
    cbn [RunClock.loop]. unfold RunClock.iteration, RunClock.on_key.
    simpl. now rewrite Hr. }
  split; [exact E|].
  intros -> Hg. rewrite E. unfold RunClock.on_time. simpl. now rewrite Hg.
Qed.

End ClockFacts.

Lemma whole_seconds_ge_1 (now last : Z) :
  (1 <=? now - last)%Z = true -> (1 <= now - last)%Z.
Proof. apply Z.leb_le. Qed.

Lemma clock_in_range_witness :
  loop_seconds RunClock.DIR_DOWN (Some 10%Z)
    {| RunClock.cur := 10; RunClock.running := false; RunClock.last := 0%Z |}
    [(Some CR, 0%Z); (None, 3%Z); (None, 20%Z)]
  = Some {| RunClock.cur := 0; RunClock.running := false;
            RunClock.last := 20%Z |}
  /\ (0 <= 0 <= 10)%Z.
Proof.
  split; [reflexivity|].
  destruct (clock_in_range Z (fun now last => (1 <=? now - last)%Z)
              (fun now last => (now - last)%Z) Z.add whole_seconds_ge_1
              RunClock.DIR_DOWN (Some 10%Z) 0%Z 0%Z
              [(Some CR, 0%Z); (None, 3%Z); (None, 20%Z)]
              {| RunClock.cur := 10; RunClock.running := false;
                 RunClock.last := 0%Z |}
              {| RunClock.cur := 10; RunClock.running := false;
                 RunClock.last := 0%Z |}
              {| RunClock.cur := 0; RunClock.running := false;
                 RunClock.last := 20%Z |}
              (or_intror eq_refl))
    as [H _]; [simpl; lia|].
  destruct (H eq_refl eq_refl) as [H0 H1].
  specialize (H1 eq_refl). simpl in H0, H1. lia.
Defined.

Lemma clock_escape_witness :
  loop_seconds RunClock.DIR_UP None
    {| RunClock.cur := 7; RunClock.running := true; RunClock.last := 0%Z |}
    ((Some Keys.ESC, 1%Z) :: [(None, 2%Z); (None, 3%Z)] ++ [(Some Keys.ESC, 4%Z)])
  = None.
Proof.
  apply (clock_escape Z (fun now last => (1 <=? now - last)%Z)
           (fun now last => (now - last)%Z) Z.add RunClock.DIR_UP None
           {| RunClock.cur := 7; RunClock.running := true;
              RunClock.last := 0%Z |} 1%Z 4%Z [(None, 2%Z); (None, 3%Z)]).
  repeat (constructor; [reflexivity|]); constructor.
Defined.

Lemma resume_counts_from_last_witness :
  loop_seconds RunClock.DIR_UP None
    {| RunClock.cur := 7; RunClock.running := false; RunClock.last := 100%Z |}
    ([(None, 130%Z); (None, 160%Z)] ++ [(Some CR, 161%Z)])
  = Some {| RunClock.cur := 68; RunClock.running := true;
            RunClock.last := 161%Z |}.
Proof.
  refine (proj2 (resume_counts_from_last Z (fun now last => (1 <=? now - last)%Z)
                   (fun now last => (now - last)%Z) Z.add RunClock.DIR_UP None
                   {| RunClock.cur := 7; RunClock.running := false;
                      RunClock.last := 100%Z |} 161%Z
                   [(None, 130%Z); (None, 160%Z)] eq_refl _) eq_refl eq_refl).
  repeat (constructor; [reflexivity|]); constructor.
Defined.

(** * The lap counter *)

Lemma lap_on_key_bounds n key n' (k : Z) :
  (0 <= n <= k)%Z -> LapCounter.on_key n key = Some n' ->
  (0 <= n' <= k + (if adds_lap key then 1 else 0))%Z.
Proof.
  intros Hn. unfold LapCounter.on_key, adds_lap.
  destruct key as [c|]; [| intros [= <-]; lia].
  destruct (Keys.is_enter c || Ascii.eqb c "+"); [intros [= <-]; lia|].
  destruct (_ || _); [intros [= <-]; lia|].
  destruct (Ascii.eqb c "0"); [intros [= <-]; lia|].
  destruct (Ascii.eqb c Keys.ESC); [discriminate | intros [= <-]; lia].
Qed.

(** X21 — the lap count is never negative and never more than the number
    of adding keys (Enter, [+]) read so far; taking a lap off at 0 leaves 0;
    adding a lap and taking it off again leaves the count as it was; and the
    counter returns only on ESC. *)
Theorem lap_count_in_range (keys rest : list (option ascii)) (n : Z) :
  match LapCounter.run_lap_counter keys with
  | Some m => (0 <= m <= Z.of_nat (List.length (filter adds_lap keys)))%Z
  | None => In (Some Keys.ESC) keys
  end
  /\ LapCounter.loop 0 (Some "-"%char :: rest) = LapCounter.loop 0 rest
  /\ ((0 <= n)%Z ->
      LapCounter.loop n (Some "+"%char :: Some "-"%char :: rest)
      = LapCounter.loop n rest).
Proof.
  split; [| split].
  - unfold LapCounter.run_lap_counter.
    assert (G : forall ks m k, (0 <= m <= k)%Z ->
                match LapCounter.loop m ks with
                | Some m' =>
                    (0 <= m' <= k + Z.of_nat (List.length (filter adds_lap ks)))%Z
                | None => In (Some Keys.ESC) ks
                end).
    { intros ks. induction ks as [|key ks' IH]; intros m k Hm.
      - simpl. lia.
      - cbn [LapCounter.loop].
        destruct (LapCounter.on_key m key) as [m'|] eqn:E.
        + pose proof (lap_on_key_bounds m key m' k Hm E) as Hb.
          specialize (IH m' _ Hb). simpl filter.
          destruct (LapCounter.loop m' ks') as [m''|]; [| now right].
          destruct (adds_lap key); simpl List.length; lia.
        + left. unfold LapCounter.on_key in E.
          destruct key as [c|]; [| discriminate].
          destruct (_ || _); [discriminate|].
          destruct (_ || _); [discriminate|].
          destruct (Ascii.eqb c "0"); [discriminate|].
          destruct (Ascii.eqb_spec c Keys.ESC) as [-> | _];
            [reflexivity | discriminate]. }
    apply (G keys 0%Z 0%Z). lia.
  - reflexivity.
  - intros Hn. cbn [LapCounter.loop]. unfold LapCounter.on_key. simpl.
    replace (Z.max 0 (n + 1 - 1)) with n by lia. reflexivity.
Qed.

Lemma lap_count_in_range_witness :
  LapCounter.loop 3 (Some "+"%char :: Some "-"%char :: [Some "+"%char])
  = LapCounter.loop 3 [Some "+"%char].
Proof.
  apply (lap_count_in_range [] [Some "+"%char] 3). lia.
Defined.

(** * The menu *)

Lemma menu_on_key_range idx c :
  (0 <= idx < 5)%Z -> (0 <= fst (Menu.on_key idx c) < 5)%Z.
Proof.
  intros H. unfold Menu.on_key.
  repeat match goal with
  | |- context [if ?b then _ else _] => destruct b
  end; simpl fst; try assumption;
  apply Z.mod_pos_bound; reflexivity.
Qed.

Lemma menu_navigate_range keys : forall idx,
  (0 <= idx < 5)%Z -> (0 <= Menu.navigate idx keys < 5)%Z.
Proof.
  unfold Menu.navigate.
  induction keys as [|c keys IH]; intros idx H; [exact H|].
  simpl. apply IH. now apply menu_on_key_range.
Qed.

(** X22 — the selection stays on the menu: from an index in range any keys
    leave it in range, so Enter always finds a mode of [MENU] and never
    fails.  Up and down undo each other and wrap round; five downs come
    back to the start; and an arrow key, read as ESC, [[] and [A] or [B],
    moves the selection one up or one down (as the letters [A] and [B]
    alone do). *)
Theorem menu_selection (idx : Z) (keys : list ascii) :
  (0 <= idx < 5)%Z ->
  (0 <= Menu.navigate idx keys < 5)%Z
  /\ (exists sel, snd (Menu.on_key (Menu.navigate idx keys) CR) = Some (Some sel)
                  /\ In sel Menu.MENU)
  /\ Menu.navigate idx ["w"%char; "s"%char] = idx
  /\ Menu.navigate idx ["s"%char; "w"%char] = idx
  /\ Menu.navigate idx (repeat "s"%char 5) = idx
  /\ Menu.navigate idx [Keys.ESC; "["%char; "A"%char] = ((idx - 1) mod 5)%Z
  /\ Menu.navigate idx [Keys.ESC; "["%char; "B"%char] = ((idx + 1) mod 5)%Z
  /\ Menu.navigate 0 ["w"%char] = 4%Z.
Proof.
  intros H. split; [now apply menu_navigate_range|].
  split.
  - pose proof (menu_navigate_range keys idx H) as Hr.
    set (i := Menu.navigate idx keys) in *.
    assert (Hi : (i = 0 \/ i = 1 \/ i = 2 \/ i = 3 \/ i = 4)%Z) by lia.
    destruct Hi as [-> | [-> | [-> | [-> | ->]]]];
      eexists; (split; [reflexivity | simpl; tauto]).
  - assert (Hi : (idx = 0 \/ idx = 1 \/ idx = 2 \/ idx = 3 \/ idx = 4)%Z) by lia.
    destruct Hi as [-> | [-> | [-> | [-> | ->]]]]; repeat split; reflexivity.
Qed.

Lemma menu_selection_witness :
  Menu.navigate 0 [Keys.ESC; "["%char; "A"%char] = 4%Z
  /\ snd (Menu.on_key (Menu.navigate 0 ["s"%char; "s"%char; "x"%char]) CR)
     = Some (Some "Clock Down").
Proof.
  destruct (menu_selection 0 ["s"%char; "s"%char; "x"%char])
    as (_ & (sel & Hs & _) & _ & _ & _ & HA & _); [lia|].
  split; [rewrite HA; reflexivity|].
  rewrite Hs. vm_compute in Hs. injection Hs as <-. reflexivity.
Defined.

(** * Rounds *)

Lemma countdown_frames len ticks : forall p,
  (0 <= p < len)%Z -> stays ticks ->
  snd (Rounds.countdown len (len - p) ticks) = false
  /\ List.length (fst (Rounds.countdown len (len - p) ticks))
     = List.length ticks
  /\ forall k, k < List.length ticks ->
       nth_error (fst (Rounds.countdown len (len - p) ticks)) k
       = Some (Rounds.frame_of (len - (p + Z.of_nat k) mod len)).
Proof.
  induction ticks as [|[key resume] ticks' IH]; intros p Hp Hs.
  - simpl. repeat split; intros; lia.
  - apply Forall_cons_iff in Hs as [Hk Hs]. simpl in Hk.
    cbn [Rounds.countdown].
    assert (Hleave : match key with
                     | Some c => Ascii.eqb c Keys.ESC && negb resume
                     | None => false
                     end = false).
    { destruct key as [c|]; [| reflexivity].
      destruct (Ascii.eqb_spec c Keys.ESC) as [-> | _]; [| reflexivity].
      destruct Hk as [Hk | ->]; [congruence | reflexivity]. }
    rewrite Hleave.
    assert (Hnext : (if (0 <? len - p - 1)%Z then (len - p - 1)%Z else len)
                    = (len - (p + 1) mod len)%Z).
    { destruct (Z.ltb_spec 0 (len - p - 1)).
      - rewrite Z.mod_small by lia. lia.
      - replace (p + 1)%Z with len by lia.
        rewrite Z.mod_same by lia. lia. }
    rewrite Hnext.
    destruct (IH ((p + 1) mod len)%Z) as (IH1 & IH2 & IH3);
      [apply Z.mod_pos_bound; lia | exact Hs |].
    destruct (Rounds.countdown len (len - (p + 1) mod len) ticks')
      as [frames gone].
    simpl in IH1, IH2, IH3 |- *.
    split; [exact IH1|]. split; [now rewrite IH2|].
    intros [|k] Hlt.
    + simpl. rewrite Z.add_0_r, Z.mod_small by lia. reflexivity.
    + simpl nth_error. rewrite IH3 by lia. do 3 f_equal.
      rewrite Z.add_mod_idemp_l by lia. f_equal. lia.
Qed.

(** X23 — what a round shows.  With a round length above zero, and as long
    as the countdown is not left (no ESC, or Enter on the pause screen), tick
    [k] shows [length - k mod length] seconds: the rounds follow each other
    without a gap, the time shown runs from [length] down to 1 and never is
    0, and the red border is on exactly when 1 second is shown; a pause
    that is resumed changes nothing of this.  ESC followed by ESC on the pause
    screen returns after the frame in hand; a cancelled or zero length
    returns at once with nothing shown. *)
Theorem rounds_frames (len r : Z) (ticks : list (option ascii * bool)) (k : nat) :
  ((0 < len)%Z -> stays ticks ->
   snd (Rounds.run_rounds (Some len) ticks) = false
   /\ List.length (fst (Rounds.run_rounds (Some len) ticks))
      = List.length ticks
   /\ (k < List.length ticks ->
       exists secs,
         nth_error (fst (Rounds.run_rounds (Some len) ticks)) k
         = Some (secs, (secs =? 1)%Z)
         /\ secs = (len - Z.of_nat k mod len)%Z
         /\ (1 <= secs <= len)%Z))
  /\ Rounds.countdown len r ((Some Keys.ESC, false) :: ticks)
     = ([Rounds.frame_of r], true)
  /\ Rounds.run_rounds None ticks = ([], true)
  /\ Rounds.run_rounds (Some 0%Z) ticks = ([], true).
Proof.
  split; [| repeat split].
  intros Hl Hs. unfold Rounds.run_rounds.
  assert (E0 : (len =? 0)%Z = false) by (apply Z.eqb_neq; lia).
  assert (E1 : (len <? 0)%Z = false) by (apply Z.ltb_ge; lia).
  rewrite E0, E1.
  destruct (countdown_frames len ticks 0%Z ltac:(lia) Hs) as (H1 & H2 & H3).
  rewrite Z.sub_0_r in H1, H2, H3.
  split; [exact H1|]. split; [exact H2|].
  intros Hk. exists (len - Z.of_nat k mod len)%Z.
  pose proof (Z.mod_pos_bound (Z.of_nat k) len Hl) as Hm.
  rewrite (H3 k Hk). simpl Z.add. unfold Rounds.frame_of.
  split; [| split; [reflexivity | lia]].
  do 2 f_equal.
  destruct (Z.leb_spec (len - Z.of_nat k mod len) 1);
    destruct (Z.eqb_spec (len - Z.of_nat k mod len) 1); lia || reflexivity.
Qed.

Lemma rounds_frames_witness :
  nth_error
    (fst (Rounds.run_rounds (Some 3%Z)
            [(None, false); (Some Keys.ESC, true); (None, false);
             (Some "x"%char, false); (None, false)])) 4
  = Some (2%Z, false).
Proof.
  destruct (rounds_frames 3 0
              [(None, false); (Some Keys.ESC, true); (None, false);
               (Some "x"%char, false); (None, false)] 4) as [H _].
  destruct H as (_ & _ & H); [lia | |].
  { repeat (constructor; [simpl; (now right) || (left; discriminate) |]).
    constructor. }
  destruct H as (secs & Hn & Hs & _); [simpl; lia|].
  rewrite Hn, Hs. reflexivity.
Defined.

(** * Centring *)

(** X24 — centring splits the slack evenly.  The offset [(bg - fg)//2] that
    [center_image_on] and [render_text] use leaves on the far side what it
    leaves on the near side, or one pixel more; when the foreground fits it
    lies wholly inside the background; when it does not, it sticks out on
    both sides or on the near side only.  [render_text] hands an explicit
    coordinate through and returns the box it drew at. *)
Theorem centre_is_balanced (bg_w bg_h w h x0 y0 : Z) :
  let x := fst (MatrixUtils.center_image_on (bg_w, bg_h) (w, h)) in
  let y := snd (MatrixUtils.center_image_on (bg_w, bg_h) (w, h)) in
  (0 <= (bg_w - w - x) - x <= 1)%Z
  /\ (0 <= (bg_h - h - y) - y <= 1)%Z
  /\ ((w <= bg_w)%Z -> (0 <= x /\ x + w <= bg_w)%Z)
  /\ ((bg_w < w)%Z -> (x < 0 /\ bg_w <= x + w)%Z)
  /\ MatrixUtils.render_text (bg_w, bg_h) w h (None, None) = (x, y, w, h)
  /\ MatrixUtils.render_text (bg_w, bg_h) w h (Some x0, None) = (x0, y, w, h)
  /\ MatrixUtils.render_text (bg_w, bg_h) w h (None, Some y0) = (x, y0, w, h).
Proof.
  unfold MatrixUtils.center_image_on, MatrixUtils.render_text,
    MatrixUtils.center. simpl fst. simpl snd. cbv zeta.
  pose proof (Z.div_mod (bg_w - w) 2 ltac:(lia)).
  pose proof (Z.mod_pos_bound (bg_w - w) 2 ltac:(lia)).
  pose proof (Z.div_mod (bg_h - h) 2 ltac:(lia)).
  pose proof (Z.mod_pos_bound (bg_h - h) 2 ltac:(lia)).
  repeat split; try reflexivity; lia.
Qed.

Lemma centre_is_balanced_witness :
  (0 <= fst (MatrixUtils.center_image_on (192, 64) (184, 71))
   /\ fst (MatrixUtils.center_image_on (192, 64) (184, 71)) + 184 <= 192)%Z
  /\ (snd (MatrixUtils.center_image_on (64, 32) (10, 35)) < 0
      /\ 32 <= snd (MatrixUtils.center_image_on (64, 32) (10, 35)) + 35)%Z.
Proof.
  pose proof (centre_is_balanced 192 64 184 71 0 0) as H.
  pose proof (centre_is_balanced 32 64 35 10 0 0) as H'.
  cbv zeta in H, H'.
  destruct H as (_ & _ & H3 & _). destruct H' as (_ & _ & _ & H4 & _).
  split; [apply H3; lia | apply H4; lia].
Defined.
